(** * MomoXRSS: the feed poller and its Discord gateway

    A shallow embedding of [server.js] (feed check, novelty gates, Discord
    delivery with rate-limit retries, the cron tick and the [/toggle] route)
    and of [models/flux.js] (the schema and the [toggleActive] static),
    followed by the properties of the specification. *)

From Stdlib Require Import ZArith String Ascii List Bool Lia.
From Stdlib Require Import Floats.SpecFloat.
From stdpp Require Import base option gmap strings.

Open Scope string_scope.
Open Scope Z_scope.
Open Scope list_scope.

(** ** JavaScript values used by the program *)

(** Strings are sequences of code units; the model keeps the code units
    below 256, so one [ascii] is one code unit and [String.length] is
    [.length]. *)

(** [WhiteSpace] and [LineTerminator] code units below 256, as
    [String.prototype.trim] strips them: TAB, LF, VT, FF, CR, SP, NBSP. *)
Definition is_whitespace (c : ascii) : bool :=
  let n := nat_of_ascii c in
  (Nat.eqb n 9 || Nat.eqb n 10 || Nat.eqb n 11 || Nat.eqb n 12
   || Nat.eqb n 13 || Nat.eqb n 32 || Nat.eqb n 160)%bool.

Fixpoint trimStart (s : string) : string :=
  match s with
  | EmptyString => EmptyString
  | String c r => if is_whitespace c then trimStart r else s
  end.

Fixpoint trimEnd (s : string) : string :=
  match s with
  | EmptyString => EmptyString
  | String c r =>
      match trimEnd r with
      | EmptyString => if is_whitespace c then EmptyString else String c EmptyString
      | r' => String c r'
      end
  end.

Definition trim (s : string) : string := trimEnd (trimStart s).

(** [s.slice(0, max)] for [0 <= max]. *)
Definition slice0 (max : nat) (s : string) : string := substring 0 max s.

(** Truthiness of a string: the empty string is falsy. *)
Definition nonempty (s : string) : bool :=
  match s with EmptyString => false | String _ _ => true end.

(** A property that may be absent: [None] is [undefined]. [present x] is
    the string of a truthy [x]. *)
Definition present (x : option string) : option string :=
  match x with
  | Some s => if nonempty s then Some s else None
  | None => None
  end.

(** [x || d] on an optional string. *)
Definition or_else (x : option string) (d : string) : string :=
  match present x with
  | Some s => s
  | None => d
  end.

(** Numbers: integral finite values and the three non-finite ones. Time
    values ([Date.prototype.getTime]) and millisecond intervals are integral
    when finite. *)
Inductive number : Type :=
| Num (z : Z)
| NaN
| Infinity
| NegInfinity.

(** Truthiness of a number: [0] and [NaN] are falsy. *)
Definition truthy (n : number) : bool :=
  match n with
  | Num z => negb (z =? 0)
  | NaN => false
  | Infinity | NegInfinity => true
  end.

Definition truthy_opt (n : option number) : bool :=
  match n with Some v => truthy v | None => false end.

Definition Number_isFinite (n : option number) : bool :=
  match n with Some (Num _) => true | _ => false end.

(** [a - b]. *)
Definition number_sub (a b : number) : number :=
  match a, b with
  | Num x, Num y => Num (x - y)
  | NaN, _ | _, NaN => NaN
  | Infinity, Infinity | NegInfinity, NegInfinity => NaN
  | Infinity, _ | _, NegInfinity => Infinity
  | NegInfinity, _ | _, Infinity => NegInfinity
  end.

(** [a >= b]. *)
Definition number_ge (a b : number) : bool :=
  match a, b with
  | NaN, _ | _, NaN => false
  | Num x, Num y => y <=? x
  | Infinity, _ => true
  | _, NegInfinity => true
  | _, _ => false
  end.

(** [v > 0], the test a sort makes on a comparator's result ([NaN] counts
    as [+0]). *)
Definition number_pos (a : number) : bool :=
  match a with
  | Num z => 0 <? z
  | Infinity => true
  | NaN | NegInfinity => false
  end.

Definition is_NaN (a : number) : bool :=
  match a with NaN => true | _ => false end.

(** Numbers that need not be integral are IEEE 754 doubles, with the
    operations of the Standard Library's [SpecFloat] at the binary64
    format: a product is the exact product rounded to the nearest double,
    ties to even. *)
Definition double : Type := spec_float.

Definition double_mul (x y : double) : double := SFmul 53 1024 x y.

(** The double of an integer (exact up to [2^53]). *)
Definition double_of_Z (z : Z) : double := binary_normalize 53 1024 z 0 false.

(** [Math.ceil]. The result is integral or not finite. *)
Definition Math_ceil (x : double) : number :=
  match x with
  | S754_zero _ => Num 0
  | S754_nan => NaN
  | S754_infinity false => Infinity
  | S754_infinity true => NegInfinity
  | S754_finite false m e => Num (- Z.shiftl (Z.neg m) e)
  | S754_finite true m e => Num (- Z.shiftl (Z.pos m) e)
  end.

(** A value that the program uses as a number. A JSON number is a double;
    of any other value (a string, a boolean, [null], an array, an object)
    the program sees whether it is truthy and what [ToNumber] makes of
    it. *)
Inductive Scalar : Type :=
| JsNumber (d : double)
| JsOther (is_truthy : bool) (to_number : double).

(** Truthiness: the numbers [0], [-0] and [NaN] are falsy. *)
Definition Scalar_truthy (v : Scalar) : bool :=
  match v with
  | JsNumber (S754_zero _) | JsNumber S754_nan => false
  | JsNumber _ => true
  | JsOther b _ => b
  end.

Definition ToNumber (v : Scalar) : double :=
  match v with
  | JsNumber d => d
  | JsOther _ d => d
  end.

(** ** The host: the URL constructor, date parsing, the engine's sort

    [new URL(s)] and [new Date(s).getTime()] belong to the platform. The
    program is modelled over any host; [URL_new s = None] is the constructor
    throwing. [engine_sort cmp l] is what the engine's
    [Array.prototype.sort] makes of [l] when [cmp] is not a consistent
    comparator: the language leaves that order to the engine and only
    asks for the same elements. *)
Record URL : Type := { protocol : string; hostname : string }.

Class Host : Type := {
  URL_new : string -> option URL;
  Date_getTime : string -> number;
  engine_sort : forall A : Type, (A -> A -> number) -> list A -> list A;
  engine_sort_In :
    forall (A : Type) (cmp : A -> A -> number) (l : list A) (x : A),
      In x (engine_sort A cmp l) <-> In x l
}.

(** What every host does on the empty string: [new URL('')] throws. *)
Definition host_rejects_empty (H : Host) : Prop := URL_new "" = None.

Section Utilities.
Context {H : Host}.

Definition isValidUrl (url : string) : bool :=
  match URL_new url with
  | Some u => nonempty (protocol u) && nonempty (hostname u)
  | None => false
  end.

(** [clampTitle(t, max = 100)]. *)
Definition clampTitle (t : option string) (max : nat) : string :=
  let s := trim (or_else t "Article") in
  if (max <? String.length s)%nat then slice0 max s else s.

Definition sanitizeLink (link : string) : string :=
  let s := trim link in
  if negb (isValidUrl s) then "" else s.

End Utilities.

(** ** Feed items and subscriptions *)

(** An item as the feed parser yields it; every field may be absent. *)
Record Item : Type := {
  title : option string;
  link : option string;
  guid : option string;
  isoDate : option string;
  pubDate : option string
}.

(** [items = None]: [feed.items] is not an array. *)
Record Feed : Type := { items : option (list Item) }.

(** The subscription document as the program holds it: an object with the
    paths of the schema and with [lastPubDate] and [_lastCheck], two plain
    properties that [checkFlux] and the cron callback set on the object.
    The schema of [models/flux.js] declares neither of the two. *)
Record Flux : Type := {
  rssUrl : string;
  discordTarget : string;
  interval : option number;
  lastItem : option string;
  lastPubDate : option number;
  active : bool;
  _lastCheck : option Z
}.

(** A stored document: the paths that the schema declares, which are all
    that [save()] writes and all that a query reads back. A document
    stored without [interval] or [active] reads as the schema's default, so
    both are kept as plain values. The [createdAt] and [updatedAt] stamps of
    [timestamps: true], which every [save()] rewrites, are left out. *)
Module Stored.

Record doc : Type := {
  rssUrl : string;
  discordTarget : string;
  interval : number;
  lastItem : option string;
  active : bool
}.


Definition with_lastItem (v : string) (r : doc) : doc :=
  {| rssUrl := rssUrl r; discordTarget := discordTarget r; interval := interval r;
     lastItem := Some v; active := active r |}.

End Stored.

(** The document object that a query builds from a stored document: it
    has the schema's paths and no other property. *)
Definition hydrate (r : Stored.doc) : Flux :=
  {| rssUrl := Stored.rssUrl r; discordTarget := Stored.discordTarget r;
     interval := Some (Stored.interval r); lastItem := Stored.lastItem r;
     lastPubDate := None; active := Stored.active r; _lastCheck := None |}.

(** What [save()] writes of a document object: its schema paths. An
    object without [interval] is stored without it and reads as the
    schema's default, 3600000. *)
Definition persisted (f : Flux) : Stored.doc :=
  {| Stored.rssUrl := rssUrl f; Stored.discordTarget := discordTarget f;
     Stored.interval := default (Num 3600000) (interval f);
     Stored.lastItem := lastItem f; Stored.active := active f |}.

Definition set_lastItem (v : string) (f : Flux) : Flux :=
  {| rssUrl := rssUrl f; discordTarget := discordTarget f; interval := interval f;
     lastItem := Some v; lastPubDate := lastPubDate f; active := active f;
     _lastCheck := _lastCheck f |}.

Definition set_lastPubDate (v : number) (f : Flux) : Flux :=
  {| rssUrl := rssUrl f; discordTarget := discordTarget f; interval := interval f;
     lastItem := lastItem f; lastPubDate := Some v; active := active f;
     _lastCheck := _lastCheck f |}.

Definition set_active (v : bool) (f : Flux) : Flux :=
  {| rssUrl := rssUrl f; discordTarget := discordTarget f; interval := interval f;
     lastItem := lastItem f; lastPubDate := lastPubDate f; active := v;
     _lastCheck := _lastCheck f |}.

Definition set__lastCheck (v : Z) (f : Flux) : Flux :=
  {| rssUrl := rssUrl f; discordTarget := discordTarget f; interval := interval f;
     lastItem := lastItem f; lastPubDate := lastPubDate f; active := active f;
     _lastCheck := Some v |}.

(** ** Novelty detection: the pure part of [checkFlux] *)

(** [Array.prototype.sort(cmp)] for a consistent comparator: the sort is
    stable, and every stable sort gives the result of this one, which moves
    [x] behind [y] only when [cmp(x, y) > 0]. *)
Section Sort.
Context {A : Type} (cmp : A -> A -> number).

Fixpoint sort_insert (x : A) (l : list A) : list A :=
  match l with
  | [] => [x]
  | y :: r => if number_pos (cmp x y) then y :: sort_insert x r else x :: l
  end.

Definition Array_sort (l : list A) : list A := fold_right sort_insert [] l.

End Sort.

Section Novelty.
Context {H : Host}.

Definition getItemLinkOrGuid (item : Item) : string :=
  or_else (link item) (or_else (guid item) "").

Definition getItemDate (item : Item) : number :=
  match present (isoDate item) with
  | Some s => Date_getTime s
  | None =>
      match present (pubDate item) with
      | Some s => Date_getTime s
      | None => Num 0
      end
  end.

(** The comparator [(a, b) => b.d - a.d]. *)
Definition byDateDesc (a b : Item * number) : number :=
  number_sub (snd b) (snd a).

(** [items.map((i) => ({ i, d: getItemDate(i) })).sort((a, b) => b.d - a.d)].
    The comparator is consistent when no date is [NaN]; when one is, the
    order is the engine's. *)
Definition sortedByDate (l : list Item) : list (Item * number) :=
  let dated := map (fun i => (i, getItemDate i)) l in
  if existsb (fun p => is_NaN (snd p)) dated
  then engine_sort (Item * number) byDateDesc dated
  else Array_sort byDateDesc dated.

(** The item [checkFlux] calls [latest], for a list whose first item is
    [first]. *)
Definition selectLatest (first : Item) (l : list Item) : Item :=
  match sortedByDate l with
  | (i, d) :: _ => if truthy d then i else first
  | [] => first
  end.

(** The anti-duplicate test of [checkFlux]. *)
Definition noNovelty (flux : Flux) (latestLink : string) (latestDate : number) : bool :=
  match lastItem flux with
  | Some l => String.eqb l latestLink
  | None => false
  end
  || (truthy_opt (lastPubDate flux) && truthy latestDate
      && match lastPubDate flux with
         | Some p => number_ge p latestDate
         | None => false
         end).

End Novelty.

(** ** The outside world: HTTP, the feed parser, the database *)

(** The JSON body of a request, before [JSON.stringify]. *)
Inductive Payload : Type :=
| NoBody
| ThreadPayload (name : string) (auto_archive_duration : Z) (content : string)
| MessagePayload (content : string).

(** A request; the headers are the same on every call and are left
    out. *)
Record Request : Type := { method : string; url : string; body : Payload }.

(** The properties the program reads from a parsed JSON body. A value that
    is not an object has none of them. [retry_after] is whatever value the
    body carries under that name. *)
Record JsonFields : Type := {
  retry_after : option Scalar;
  json_id : option string;
  json_type : option Z;
  json_name : option string
}.

(** What [resp.json()] gives: a rejection, the value [null], or another
    value. *)
Inductive JsonBody : Type :=
| JsonInvalid
| JsonNull
| JsonValue (o : JsonFields).

(** A response: [text = None] when [resp.text()] rejects. *)
Record Response : Type := { status : Z; text : option string; json : JsonBody }.

(** [resp.ok]. *)
Definition ok (r : Response) : bool := (200 <=? status r) && (status r <? 300).

Record ChannelInfo : Type := {
  channel_id : option string;
  channel_type : option Z;
  channel_name : option string
}.

(** [channel.type === n]. *)
Definition type_is (c : ChannelInfo) (n : Z) : bool :=
  match channel_type c with
  | Some t => t =? n
  | None => false
  end.

(** Errors, by the message they carry. *)
Inductive Error : Type :=
| TokenMissing
    (* 'DISCORD_BOT_TOKEN non configuré' *)
| DiscordError (meth target : string) (code : Z) (txt : string)
    (* `Discord ${method} ${url} -> ${resp.status}: ${text}` *)
| UnsupportedChannelType (ty : option Z)
    (* `Type de salon non supporté: ${channel.type}` *)
| TimeoutRSS
    (* 'Timeout RSS' *)
| TypeError
    (* a property read on null *)
| Thrown (msg : string).
    (* raised by a library: network, JSON, feed parser, database *)

Definition result (A : Type) : Type := (Error + A)%type.

(** One run of the program meets one world. [fetch n req] answers the
    [n]-th HTTP call; [parseURL u] is how long the feed parser takes and
    what it settles with ([None]: it never settles); [collection] holds the
    stored documents in their natural order, [find_error] is set when a
    query is rejected, and [save] is the outcome of [save()] on a document
    object. *)
Record World : Type := {
  DISCORD_TOKEN : option string;
  API_KEY : option string;
  fetch : nat -> Request -> result Response;
  parseURL : string -> option (Z * result Feed);
  collection : list Stored.doc;
  find_error : option Error;
  save : Flux -> result unit
}.

Inductive Event : Type :=
| Fetched (r : Request)
| Slept (ms : number)               (* setTimeout(r, ms) *)
| Saved (f : Flux)                  (* flux.save() resolved *)
| Warned (target : string)          (* console.warn(`Flux invalide, URL: ...`) *)
| CheckError (target : string) (e : Error)  (* console.error(`checkFlux (...)`, err.message) *)
| CronError (e : Error).           (* console.error('Cron error:', err.message) *)

(** The process state: the channel cache and what happened so far. *)
Record State : Type := {
  channelTypeCache : gmap string ChannelInfo;
  trace : list Event
}.

Definition emit (e : Event) (s : State) : State :=
  {| channelTypeCache := channelTypeCache s; trace := trace s ++ [e] |}.

Definition cache_set (k : string) (v : ChannelInfo) (s : State) : State :=
  {| channelTypeCache := <[k := v]> (channelTypeCache s); trace := trace s |}.

Definition is_fetch (e : Event) : bool :=
  match e with Fetched _ => true | _ => false end.

(** The HTTP calls among some events. *)
Fixpoint requests (evs : list Event) : list Request :=
  match evs with
  | [] => []
  | Fetched r :: rest => r :: requests rest
  | _ :: rest => requests rest
  end.

(** Number of HTTP calls made so far. *)
Definition calls (s : State) : nat := length (List.filter is_fetch (trace s)).

(** [adds P s s']: the trace of [s'] is that of [s] followed by events
    that all satisfy [P]. *)
Definition adds (P : Event -> bool) (s s' : State) : Prop :=
  exists evs, trace s' = trace s ++ evs /\ forallb P evs = true.

(** State and exceptions. *)
Definition M (A : Type) : Type := State -> result A * State.

Definition ret {A} (a : A) : M A := fun s => (inr a, s).
Definition throw {A} (e : Error) : M A := fun s => (inl e, s).
Definition bind {A B} (m : M A) (k : A -> M B) : M B :=
  fun s => match m s with
           | (inr a, s') => k a s'
           | (inl e, s') => (inl e, s')
           end.

Notation "x <- c ;; k" := (bind c (fun x => k))
  (at level 100, c at next level, right associativity).
Notation "c ;;; k" := (bind c (fun _ => k))
  (at level 100, right associativity).

(** ** The Discord gateway *)

Definition LF : string := String (ascii_of_nat 10) EmptyString.

Definition emptyObject : JsonFields :=
  {| retry_after := None; json_id := None; json_type := None; json_name := None |}.

(** [Math.ceil((body.retry_after || 1) * 1000)], the product taken in
    double arithmetic. *)
Definition retryMs (o : JsonFields) : number :=
  let seconds :=
    match retry_after o with
    | Some v => if Scalar_truthy v then ToNumber v else double_of_Z 1
    | None => double_of_Z 1
    end in
  Math_ceil (double_mul seconds (double_of_Z 1000)).

(** The argument of [setTimeout] before a retry, from the body of the 429
    response: [resp.json().catch(() => ({}))] reads a body that is not JSON
    as [{}], and a [null] body makes [body.retry_after] throw, which the
    inner [catch] turns into a wait of 1000 ms. *)
Definition retryDelay (j : JsonBody) : number :=
  match j with
  | JsonValue o => retryMs o
  | JsonInvalid => retryMs emptyObject
  | JsonNull => Num 1000
  end.

Definition channelUrl (channelId : string) : string :=
  "https://discord.com/api/v10/channels/" +:+ channelId.

(** The three requests of the gateway: [GET /channels/{id}],
    [POST /channels/{id}/threads] and [POST /channels/{id}/messages]. *)
Definition lookupRequest (channelId : string) : Request :=
  {| method := "GET"; url := channelUrl channelId; body := NoBody |}.

Definition threadRequest (channelId title content : string) : Request :=
  {| method := "POST"; url := channelUrl channelId +:+ "/threads";
     body := ThreadPayload
               (clampTitle (Some title) 90) 1440
               (trim (or_else (Some content) (or_else (Some title) "Article"))) |}.

Definition messageRequest (channelId content : string) : Request :=
  {| method := "POST"; url := channelUrl channelId +:+ "/messages";
     body := MessagePayload (trim (or_else (Some content) "")) |}.

Section Gateway.
Context {H : Host} (W : World).

(** [await fetch(url, ...)]: the call is recorded, then answered. *)
Definition do_fetch (req : Request) : M Response :=
  fun s => (fetch W (calls s) req, emit (Fetched req) s).

(** [await new Promise((r) => setTimeout(r, ms))]. *)
Definition sleep (ms : number) : M unit := fun s => (inr tt, emit (Slept ms) s).

(** The tail of [discordFetch]: [if (!resp.ok) throw ...; return resp]. *)
Definition settle (req : Request) (resp : Response) : M Response :=
  if negb (ok resp)
  then throw (DiscordError (method req) (url req) (status resp) (default "" (text resp)))
  else ret resp.

(** [discordFetch(url, options, retries = 2)]. The retry branch is taken
    when [resp.status === 429 && retries > 0]. *)
Fixpoint discordFetch (req : Request) (retries : nat) : M Response :=
  resp <- do_fetch req ;;
  match retries with
  | S r =>
      if status resp =? 429 then
        sleep (retryDelay (json resp)) ;;; discordFetch req r
      else settle req resp
  | O => settle req resp
  end.

(** [await resp.json()] followed by property reads. *)
Definition read_json (resp : Response) : M JsonFields :=
  match json resp with
  | JsonValue o => ret o
  | JsonNull => throw TypeError
  | JsonInvalid => throw (Thrown "invalid json")
  end.

Definition getChannel (channelId : string) : M ChannelInfo :=
  fun s =>
    match channelTypeCache s !! channelId with
    | Some cached => (inr cached, s)
    | None =>
        (resp <- discordFetch (lookupRequest channelId) 2 ;;
         o <- read_json resp ;;
         let info := {| channel_id := json_id o; channel_type := json_type o;
                        channel_name := json_name o |} in
         fun s' => (inr info, cache_set channelId info s')) s
    end.

(** [return resp.json()]: only a rejection matters to the caller. *)
Definition return_json (resp : Response) : M unit :=
  match json resp with
  | JsonInvalid => throw (Thrown "invalid json")
  | _ => ret tt
  end.

Definition createForumThread (channelId title content : string) : M unit :=
  resp <- discordFetch (threadRequest channelId title content) 2 ;;
  return_json resp.

Definition postTextMessage (channelId content : string) : M unit :=
  resp <- discordFetch (messageRequest channelId content) 2 ;;
  return_json resp.

(** The message body built by [sendToDiscord]. *)
Definition messageContent (title : option string) (link : string) : string :=
  let safeTitle := clampTitle title 100 in
  let safeLink := sanitizeLink link in
  if nonempty safeLink then safeTitle +:+ LF +:+ safeLink else safeTitle.

Definition sendToDiscord (channelId : string) (title : option string) (link : string)
  : M unit :=
  if negb (nonempty (or_else (DISCORD_TOKEN W) "")) then throw TokenMissing else
  channel <- getChannel channelId ;;
  let safeTitle := clampTitle title 100 in
  let content := messageContent title link in
  if type_is channel 15 then createForumThread channelId safeTitle content
  else if type_is channel 0 then postTextMessage channelId content
  else throw (UnsupportedChannelType (channel_type channel)).

End Gateway.

(** ** The feed check *)

(** Where [checkFlux] left: one of its [return]s, its last line, or its
    [catch] (with the step that threw). The function itself returns
    [undefined] in every case. *)
Inductive Stage : Type := Fetching | Delivering | Saving.

Inductive Outcome : Type :=
| InvalidFeedUrl
| NoItems
| NoLink
| NoNovelty
| Delivered
| Failed (at_ : Stage) (e : Error).

(** The outcomes in which the item was posted. *)
Definition delivered (o : Outcome) : bool :=
  match o with
  | Delivered | Failed Saving _ => true
  | _ => false
  end.

(** Events of the network, and the scheduler's own error log. *)
Definition is_network (e : Event) : bool :=
  match e with Fetched _ | Slept _ => true | _ => false end.

Definition is_cron_error (e : Event) : bool :=
  match e with CronError _ => true | _ => false end.

Definition no_cron_error (e : Event) : bool := negb (is_cron_error e).

Section Check.
Context {H : Host} (W : World).

(** [Promise.race] of the parser and a timer of [ms] milliseconds. *)
Definition parseRssWithTimeout (target : string) (ms : Z) : result Feed :=
  match parseURL W target with
  | Some (t, r) => if t <? ms then r else inl TimeoutRSS
  | None => inl TimeoutRSS
  end.

(** The body of the [try] block; [flux] is the document object, returned
    as the block leaves it. *)
Definition checkFlux_try (flux : Flux) (s : State)
  : (Stage * Error + Outcome) * Flux * State :=
  if negb (isValidUrl (rssUrl flux))
  then (inr InvalidFeedUrl, flux, emit (Warned (rssUrl flux)) s)
  else
    match parseRssWithTimeout (rssUrl flux) 20000 with
    | inl e => (inl (Fetching, e), flux, s)
    | inr feed =>
        match default [] (items feed) with
        | [] => (inr NoItems, flux, s)
        | first :: rest =>
            let latest := selectLatest first (first :: rest) in
            let latestLink := sanitizeLink (getItemLinkOrGuid latest) in
            let latestDate := getItemDate latest in
            if negb (nonempty latestLink) then (inr NoLink, flux, s)
            else if noNovelty flux latestLink latestDate then (inr NoNovelty, flux, s)
            else
              match sendToDiscord W (discordTarget flux) (title latest) latestLink s with
              | (inl e, s1) => (inl (Delivering, e), flux, s1)
              | (inr _, s1) =>
                  let flux1 := set_lastItem latestLink flux in
                  let flux2 :=
                    if truthy latestDate then set_lastPubDate latestDate flux1 else flux1 in
                  match save W flux2 with
                  | inl e => (inl (Saving, e), flux2, s1)
                  | inr _ => (inr Delivered, flux2, emit (Saved flux2) s1)
                  end
              end
        end
    end.

(** [checkFlux]: the [try] block and its [catch], which logs and returns. *)
Definition checkFlux (flux : Flux) (s : State) : Outcome * Flux * State :=
  match checkFlux_try flux s with
  | (inr o, flux', s') => (o, flux', s')
  | (inl (st, e), flux', s') =>
      (Failed st e, flux', emit (CheckError (rssUrl flux') e) s')
  end.

(** ** The cron tick *)

(** [Flux.findActive()], that is [this.find({ active: true })]: a fresh
    document object for every stored document that is active. *)
Definition findActive : result (list Flux) :=
  match find_error W with
  | Some e => inl e
  | None => inr (map hydrate (List.filter Stored.active (collection W)))
  end.

(** [Number.isFinite(flux.interval) ? flux.interval : 60000]. *)
Definition effectiveInterval (flux : Flux) : number :=
  if Number_isFinite (interval flux) then default NaN (interval flux) else Num 60000.

(** [!flux._lastCheck || now - flux._lastCheck >= interval]. *)
Definition isDue (now : Z) (flux : Flux) : bool :=
  match _lastCheck flux with
  | None => true
  | Some last =>
      (last =? 0) || number_ge (Num (now - last)) (effectiveInterval flux)
  end.

(** The [for] loop: every due document gets [_lastCheck = now] and its
    check is pushed to [toRun]; the others are left alone. The result pairs
    each document with whether it was pushed. *)
Definition schedule (now : Z) (fluxes : list Flux) : list (Flux * bool) :=
  map (fun flux => if isDue now flux then (set__lastCheck now flux, true)
                   else (flux, false)) fluxes.

Definition toRun (now : Z) (fluxes : list Flux) : list Flux :=
  map fst (List.filter snd (schedule now fluxes)).

(** [Promise.allSettled(toRun)]: every pushed check runs to its end; the
    checks are taken one after the other, in the order they were pushed. *)
Fixpoint allSettled (l : list Flux) (s : State) : list (Outcome * Flux) * State :=
  match l with
  | [] => ([], s)
  | flux :: r =>
      let '(o, flux', s1) := checkFlux flux s in
      let '(rest, s2) := allSettled r s1 in
      ((o, flux') :: rest, s2)
  end.

Definition cronTick (now : Z) (s : State) : list (Outcome * Flux) * State :=
  match findActive with
  | inl e => ([], emit (CronError e) s)
  | inr fluxes => allSettled (toRun now fluxes) s
  end.

End Check.

(** ** [models/flux.js]: [toggleActive], and the [/toggle] route *)

Section Toggle.
Context {H : Host} (W : World).

(** [this.findOne({ rssUrl })]: a document object for the first stored
    document with that URL. *)
Definition findOne (target : string) : result (option Flux) :=
  match find_error W with
  | Some e => inl e
  | None =>
      inr (hydrate <$> List.find (fun r => String.eqb (Stored.rssUrl r) target)
                                 (collection W))
  end.

(** Writing a document back: what is written takes the place of the first
    stored document with its URL (the one [findOne] loaded). *)
Fixpoint store (doc : Stored.doc) (docs : list Stored.doc) : list Stored.doc :=
  match docs with
  | [] => []
  | r :: rest =>
      if String.eqb (Stored.rssUrl r) (Stored.rssUrl doc) then doc :: rest
      else r :: store doc rest
  end.

(** [toggleActive(rssUrl)]: the result and the collection afterwards. *)
Definition toggleActive (target : string) : result (option Flux) * list Stored.doc :=
  match findOne target with
  | inl e => (inl e, collection W)
  | inr None => (inr None, collection W)
  | inr (Some flux) =>
      let flux' := set_active (negb (active flux)) flux in
      match save W flux' with
      | inl e => (inl e, collection W)
      | inr _ => (inr (Some flux'), store (persisted flux') (collection W))
      end
  end.

Inductive Reply : Type :=
| SendText (code : Z) (msg : string)
| SendError (code : Z) (e : Error)       (* res.status(code).send(err.message) *)
| SendActive (code : Z) (value : bool).  (* res.json({ active: value }) *)

(** [requireApiKey]: [None] lets the request through. *)
Definition requireApiKey (key : option string) : option Reply :=
  match present (API_KEY W) with
  | None => None
  | Some k =>
      match present key with
      | Some k' => if String.eqb k' k then None else Some (SendText 401 "API key invalide")
      | None => Some (SendText 401 "API key invalide")
      end
  end.

(** [app.post('/toggle', requireApiKey, ...)], for the header [X-API-Key]
    and the [rssUrl] of the body. *)
Definition toggle_route (key : option string) (target : option string)
  : Reply * list Stored.doc :=
  match requireApiKey key with
  | Some r => (r, collection W)
  | None =>
      match present target with
      | None => (SendText 400 "rssUrl invalide", collection W)
      | Some u =>
          if negb (isValidUrl u) then (SendText 400 "rssUrl invalide", collection W)
          else
            match toggleActive u with
            | (inl e, c) => (SendError 500 e, c)
            | (inr None, c) => (SendText 404 "Flux introuvable", c)
            | (inr (Some flux), c) => (SendActive 200 (active flux), c)
            end
      end
  end.

End Toggle.

(** ** A host and a world for the examples

    The examples run on a small host: its URL constructor reads absolute
    [http:] and [https:] URLs with a plain host name, and its date parser
    reads the date-time form that [toISOString] writes. Both reject every
    other string, which real engines do for the strings used below. *)
Module Example.

Definition is_host_char (c : ascii) : bool :=
  let n := nat_of_ascii c in
  ((48 <=? n) && (n <=? 57) || (97 <=? n) && (n <=? 122)
   || Nat.eqb n 45 || Nat.eqb n 46)%nat.

Fixpoint host_part (s : string) : option string :=
  match s with
  | EmptyString => Some EmptyString
  | String c r =>
      if Ascii.eqb c "/" then Some EmptyString
      else if is_host_char c then h ← host_part r; Some (String c h)
      else None
  end.

Definition after (p s : string) : option string :=
  if String.prefix p s then Some (substring (String.length p) (String.length s) s)
  else None.

Definition url_new (s : string) : option URL :=
  let with_scheme (scheme : string) :=
    r ← after (scheme +:+ "//") s;
    h ← host_part r;
    if nonempty h then Some {| protocol := scheme; hostname := h |} else None in
  match with_scheme "http:" with
  | Some u => Some u
  | None => with_scheme "https:"
  end.

Definition digit (c : ascii) : option Z :=
  let n := Z.of_nat (nat_of_ascii c) in
  if (48 <=? n) && (n <=? 57) then Some (n - 48) else None.

(** [n] digits, most significant first. *)
Fixpoint digits (n : nat) (acc : Z) (s : string) : option (Z * string) :=
  match n, s with
  | O, _ => Some (acc, s)
  | S k, String c r => d ← digit c; digits k (acc * 10 + d) r
  | S _, EmptyString => None
  end.

Definition expect (c : ascii) (s : string) : option string :=
  match s with
  | String c' r => if Ascii.eqb c c' then Some r else None
  | EmptyString => None
  end.

Definition is_leap (y : Z) : bool :=
  (y mod 4 =? 0) && (negb (y mod 100 =? 0) || (y mod 400 =? 0)).

Definition days_in_month (y m : Z) : Z :=
  if m =? 2 then (if is_leap y then 29 else 28)
  else if (m =? 4) || (m =? 6) || (m =? 9) || (m =? 11) then 30
  else 31.

(** Days from 1970-01-01 to the given civil date. *)
Definition days_from_civil (y m d : Z) : Z :=
  let y' := if m <=? 2 then y - 1 else y in
  let era := y' / 400 in
  let yoe := y' - era * 400 in
  let mp := (m + 9) mod 12 in
  let doy := (153 * mp + 2) / 5 + d - 1 in
  let doe := yoe * 365 + yoe / 4 - yoe / 100 + doy in
  era * 146097 + doe - 719468.

(** [YYYY-MM-DDTHH:mm:ss.sssZ]. *)
Definition parse_iso (s : string) : option Z :=
  '(y, s) ← digits 4 0 s; s ← expect "-" s;
  '(mo, s) ← digits 2 0 s; s ← expect "-" s;
  '(d, s) ← digits 2 0 s; s ← expect "T" s;
  '(h, s) ← digits 2 0 s; s ← expect ":" s;
  '(mi, s) ← digits 2 0 s; s ← expect ":" s;
  '(sec, s) ← digits 2 0 s; s ← expect "." s;
  '(ms, s) ← digits 3 0 s; s ← expect "Z" s;
  if nonempty s then None
  else if (1 <=? mo) && (mo <=? 12) && (1 <=? d) && (d <=? days_in_month y mo)
          && (h <=? 23) && (mi <=? 59) && (sec <=? 59)
  then Some (days_from_civil y mo d * 86400000 + h * 3600000 + mi * 60000
             + sec * 1000 + ms)
  else None.

Definition date_getTime (s : string) : number :=
  match parse_iso s with
  | Some t => Num t
  | None => NaN
  end.

(** No example sorts items with a date that does not parse, so the
    engine's order for an inconsistent comparator is never asked for; this
    host leaves such an array as it is. *)
#[export] Instance host : Host :=
  {| URL_new := url_new; Date_getTime := date_getTime;
     engine_sort := fun _ _ l => l;
     engine_sort_In := fun _ _ _ _ => conj (fun h => h) (fun h => h) |}.

End Example.

Module Inputs.
Import Example.

Definition channelJson (ty : Z) : JsonBody :=
  JsonValue {| retry_after := None; json_id := Some "123456789012345678";
               json_type := Some ty; json_name := Some "news" |}.

Definition reply (code : Z) (j : JsonBody) : Response :=
  {| status := code; text := Some "body"; json := j |}.

(** The number that [JSON.parse] reads from the decimal literal
    [n / 10^k], for [n] and [10^k] below [2^53]: the nearest double, which
    is what the correctly rounded division of the two integers gives. *)
Definition decimal (n : Z) (k : nat) : Scalar :=
  JsNumber (SFdiv 53 1024 (double_of_Z n) (double_of_Z (10 ^ Z.of_nat k))).

(** The string ["soon"] as a value: truthy, and [NaN] as a number. *)
Definition soon : Scalar := JsOther true S754_nan.

Definition retryBody (seconds : option Scalar) : JsonFields :=
  {| retry_after := seconds; json_id := None; json_type := None; json_name := None |}.

Definition rateLimited (seconds : option Scalar) : Response :=
  reply 429 (JsonValue (retryBody seconds)).

(** Discord answering every call: the channel lookup with a channel of
    type [ty], every post with success. *)
Definition discord (ty : Z) (n : nat) (req : Request) : result Response :=
  if String.eqb (method req) "GET" then inr (reply 200 (channelJson ty))
  else inr (reply 200 (JsonValue emptyObject)).

(** Discord answering [429] to the first [k] calls and then as [discord]. *)
Definition busy (k : nat) (seconds : option Scalar) (ty : Z) (n : nat) (req : Request)
  : result Response :=
  if (n <? k)%nat then inr (rateLimited seconds) else discord ty n req.

Definition world (ty : Z) (feed : Feed) (docs : list Stored.doc) : World :=
  {| DISCORD_TOKEN := Some "token"; API_KEY := None; fetch := discord ty;
     parseURL := fun _ => Some (120, inr feed); collection := docs;
     find_error := None; save := fun _ => inr tt |}.

Definition busyWorld (k : nat) (seconds : option Scalar) : World :=
  {| DISCORD_TOKEN := Some "token"; API_KEY := None; fetch := busy k seconds 0;
     parseURL := fun _ => None; collection := [];
     find_error := None; save := fun _ => inr tt |}.

Definition start : State := {| channelTypeCache := ∅; trace := [] |}.

Definition item (l : string) (iso : option string) : Item :=
  {| title := Some "News"; link := Some l; guid := None; isoDate := iso;
     pubDate := None |}.

Definition subscription (seenLink : option string) (seenDate : option number) : Flux :=
  {| rssUrl := "https://feed.example/rss"; discordTarget := "123456789012345678";
     interval := Some (Num 60000); lastItem := seenLink; lastPubDate := seenDate;
     active := true; _lastCheck := None |}.

Definition T1 : string := "2024-01-01T00:00:00.000Z".
Definition T2 : string := "2024-01-02T00:00:00.000Z".

(** The feed of the specification's example: item [a] dated [T1], then
    item [b] dated [T2 > T1]. *)
Definition feedAB : Feed :=
  {| items := Some [item "https://news.example/a" (Some T1);
                    item "https://news.example/b" (Some T2)] |}.

(** A stored subscription that has recorded the link of item [b], the
    document of a subscription that has recorded nothing, and a stored
    subscription to another feed that is switched off. *)
Definition recentDoc : Stored.doc :=
  persisted (subscription (Some "https://news.example/b") None).
Definition dueDoc : Flux := subscription None None.
Definition pausedDoc : Stored.doc :=
  {| Stored.rssUrl := "https://paused.example/rss";
     Stored.discordTarget := "123456789012345678";
     Stored.interval := Num 60000; Stored.lastItem := None;
     Stored.active := false |}.

(** A stored subscription with the schema's default interval, one hour,
    that has recorded nothing. *)
Definition hourlyDoc : Stored.doc :=
  {| Stored.rssUrl := "https://feed.example/rss";
     Stored.discordTarget := "123456789012345678";
     Stored.interval := Num 3600000; Stored.lastItem := None;
     Stored.active := true |}.

(** A feed whose only item has a link that is no URL, and a feed whose
    only item is dated [T1]. *)
Definition feedBadLink : Feed := {| items := Some [item "not a url" None] |}.

Definition feedOld : Feed :=
  {| items := Some [item "https://news.example/c" (Some T1)] |}.

(** A second subscription, whose feed never answers, and a world in
    which every other feed is [feedAB]. *)
Definition slowDoc : Flux :=
  {| rssUrl := "https://slow.example/rss"; discordTarget := "123456789012345678";
     interval := Some (Num 60000); lastItem := None; lastPubDate := None;
     active := true; _lastCheck := None |}.

Definition mixedWorld (docs : list Stored.doc) : World :=
  {| DISCORD_TOKEN := Some "token"; API_KEY := None; fetch := discord 0;
     parseURL := fun u => if String.eqb u "https://slow.example/rss" then None
                          else Some (120, inr feedAB);
     collection := docs; find_error := None; save := fun _ => inr tt |}.

Definition getChannelRequest : Request := lookupRequest "123456789012345678".

(** The channel of type [ty] as [getChannel] caches it, and the state a
    first lookup leaves. *)
Definition channel (ty : Z) : ChannelInfo :=
  {| channel_id := Some "123456789012345678"; channel_type := Some ty;
     channel_name := Some "news" |}.

Definition resolved (ty : Z) : State :=
  cache_set "123456789012345678" (channel ty) (emit (Fetched getChannelRequest) start).

(** A title of 120 code units. *)
Definition longTitle : string :=
  String.concat "" (repeat "0123456789" 12).

End Inputs.

(** ** More of the management API: [/delete] and [/manual] *)

(** Whether a string is made of white space only, and whether it does
    not begin with white space. *)
Fixpoint blank (s : string) : bool :=
  match s with
  | EmptyString => true
  | String c r => is_whitespace c && blank r
  end.

Definition clean_start (s : string) : bool :=
  match s with
  | EmptyString => true
  | String c _ => negb (is_whitespace c)
  end.

Definition is_digit (c : ascii) : bool :=
  let n := nat_of_ascii c in ((48 <=? n) && (n <=? 57))%nat.

Fixpoint all_digits (s : string) : bool :=
  match s with
  | EmptyString => true
  | String c r => is_digit c && all_digits r
  end.

(** [/^[0-9]{16,21}$/.test(String(id))]. *)
Definition isValidDiscordId (id : string) : bool :=
  (all_digits id && (16 <=? String.length id) && (String.length id <=? 21))%nat.

(** The code unit U+00E9 of the replies' texts. *)
Definition e_acute : string := String (ascii_of_nat 233) EmptyString.

(** What a route sends: one of the replies of [/toggle], or
    [res.json({ message })]. *)
Inductive Answer : Type :=
| Plain (r : Reply)
| JsonMessage (code : Z) (message : string).

Section MoreRoutes.
Context {H : Host} (W : World).

(** Removing the first stored document with the given URL. *)
Fixpoint remove_first (target : string) (docs : list Stored.doc) : list Stored.doc :=
  match docs with
  | [] => []
  | r :: rest =>
      if String.eqb (Stored.rssUrl r) target then rest else r :: remove_first target rest
  end.

(** [Flux.findOneAndDelete({ rssUrl })], a query of the database library:
    like [findOne] it takes the first stored document with that URL. The
    result is the document removed, if any, and the collection
    afterwards. *)
Definition findOneAndDelete (target : string)
  : result (option Flux) * list Stored.doc :=
  match findOne W target with
  | inl e => (inl e, collection W)
  | inr None => (inr None, collection W)
  | inr (Some flux) => (inr (Some flux), remove_first target (collection W))
  end.

(** [app.post('/delete', requireApiKey, ...)]. *)
Definition delete_route (key : option string) (target : option string)
  : Answer * list Stored.doc :=
  match requireApiKey W key with
  | Some r => (Plain r, collection W)
  | None =>
      match present target with
      | None => (Plain (SendText 400 "rssUrl invalide"), collection W)
      | Some u =>
          if negb (isValidUrl u)
          then (Plain (SendText 400 "rssUrl invalide"), collection W)
          else
            match findOneAndDelete u with
            | (inl e, c) => (Plain (SendError 500 e), c)
            | (inr None, c) => (Plain (SendText 404 "Flux introuvable"), c)
            | (inr (Some _), c) =>
                (JsonMessage 200 ("Flux supprim" +:+ e_acute), c)
            end
      end
  end.

(** [app.post('/manual', requireApiKey, ...)], for the [title], [link] and
    [discordTarget] of the body. *)
Definition manual_route (key : option string) (title link discordTarget : option string)
           (s : State) : Reply * State :=
  match requireApiKey W key with
  | Some r => (r, s)
  | None =>
      match present discordTarget with
      | None => (SendText 400 "discordTarget invalide", s)
      | Some t =>
          if negb (isValidDiscordId t) then (SendText 400 "discordTarget invalide", s)
          else
            let safeLink := sanitizeLink (or_else link "") in
            match sendToDiscord W t (Some (or_else title "Article")) safeLink s with
            | (inl e, s1) => (SendError 500 e, s1)
            | (inr _, s1) =>
                (SendText 200 ("Article personnalis" +:+ e_acute +:+ " envoy" +:+ e_acute),
                 s1)
            end
      end
  end.

End MoreRoutes.

Module MoreInputs.
Import Example Inputs.



(** A world whose routes are protected by the key ["secret"]. *)
Definition lockedWorld (docs : list Stored.doc) : World :=
  {| DISCORD_TOKEN := Some "token"; API_KEY := Some "secret"; fetch := discord 0;
     parseURL := fun _ => Some (120, inr feedAB); collection := docs;
     find_error := None; save := fun _ => inr tt |}.

(** Three items: one without a date, then two dated [T1] and [T2]. *)
Definition feedMixed : list Item :=
  [item "https://news.example/c" None;
   item "https://news.example/a" (Some T1);
   item "https://news.example/b" (Some T2)].

End MoreInputs.

(** * Properties *)

(** ** Item dates *)

Section DateProperties.
Context {H : Host}.

Lemma getItemDate_iso (item : Item) (s : string) :
  present (isoDate item) = Some s -> getItemDate item = Date_getTime s.
Proof. unfold getItemDate. intros ->. reflexivity. Qed.

Lemma getItemDate_pub (item : Item) (s : string) :
  present (isoDate item) = None -> present (pubDate item) = Some s ->
  getItemDate item = Date_getTime s.
Proof. unfold getItemDate. intros -> ->. reflexivity. Qed.

Lemma getItemDate_absent (item : Item) :
  present (isoDate item) = None -> present (pubDate item) = None ->
  getItemDate item = Num 0.
Proof. unfold getItemDate. intros -> ->. reflexivity. Qed.

(** With a falsy date ([0] or [NaN]) only the link gate is left. *)
Lemma noNovelty_falsy_date (flux : Flux) (l : string) (d : number) :
  truthy d = false ->
  noNovelty flux l d = match lastItem flux with
                       | Some x => String.eqb x l
                       | None => false
                       end.
Proof.
  intros Hd. unfold noNovelty. rewrite Hd, andb_false_r. simpl.
  apply orb_false_r.
Qed.

(** C9, as amended. The date of an item is the time value of [isoDate]
    when that field is a non-empty string, else of [pubDate] when that one
    is, and [0] when both are absent or empty. The value is whatever the
    date parser gives, so a non-empty field that does not parse yields [NaN]
    and not [0]; a date of [0] or [NaN] leaves the date gate off. *)
Theorem getItemDate_spec (item : Item) :
  (forall s, present (isoDate item) = Some s -> getItemDate item = Date_getTime s)
  /\ (forall s, present (isoDate item) = None -> present (pubDate item) = Some s ->
        getItemDate item = Date_getTime s)
  /\ (present (isoDate item) = None -> present (pubDate item) = None ->
        getItemDate item = Num 0)
  /\ (forall flux l, truthy (getItemDate item) = false ->
        noNovelty flux l (getItemDate item)
        = match lastItem flux with Some x => String.eqb x l | None => false end).
Proof.
  repeat split.
  - apply getItemDate_iso.
  - intros s. apply getItemDate_pub.
  - apply getItemDate_absent.
  - intros flux l. apply noNovelty_falsy_date.
Qed.

End DateProperties.

(** An item whose [isoDate] is well formed. *)
Lemma getItemDate_spec_witness :
  getItemDate (H := Example.host) (Inputs.item "https://news.example/a" (Some Inputs.T1))
  = Num 1704067200000.
Proof.
  rewrite (proj1 (getItemDate_spec (H := Example.host) _) Inputs.T1); reflexivity.
Defined.

(** C9 as stated fails: an item whose only date field is the non-empty
    string ["not a date"], which does not parse, has the date [NaN], not
    [0]. *)
Lemma getItemDate_malformed_is_NaN :
  let it := {| title := Some "News"; link := Some "https://news.example/a";
               guid := None; isoDate := None; pubDate := Some "not a date" |} in
  Date_getTime (Host := Example.host) "not a date" = NaN
  /\ getItemDate (H := Example.host) it = NaN
  /\ getItemDate (H := Example.host) it <> Num 0.
Proof. split; [reflexivity | split; [reflexivity | discriminate]]. Qed.

(** ** The scheduler *)

Lemma toRun_due (now : Z) (fluxes : list Flux) :
  toRun now fluxes = map (set__lastCheck now) (List.filter (isDue now) fluxes).
Proof.
  unfold toRun, schedule. induction fluxes as [|f r IH]; [reflexivity |].
  simpl. destruct (isDue now f); simpl; rewrite IH; reflexivity.
Qed.

Lemma toRun_loaded (now : Z) (docs : list Stored.doc) :
  toRun now (map hydrate docs) = map (fun r => set__lastCheck now (hydrate r)) docs.
Proof.
  rewrite toRun_due. induction docs as [|r rest IH]; simpl; [reflexivity |].
  rewrite IH. reflexivity.
Qed.

Lemma allSettled_length {H : Host} (W : World) (l : list Flux) (s : State) :
  length (fst (allSettled W l s)) = length l.
Proof.
  revert s. induction l as [|doc l IH]; intros s; simpl; [reflexivity |].
  destruct (checkFlux W doc s) as [[o doc'] s1]. specialize (IH s1).
  destruct (allSettled W l s1) as [rest s2]. simpl in *. congruence.
Qed.

(** C8. The interval is not honoured. The cron callback sets [_lastCheck]
    on the document objects that [Flux.findActive()] built for this tick;
    the next tick asks the database again and gets new objects, and
    [_lastCheck] is no path of the schema. A document of the loop therefore
    never carries [_lastCheck] and the loop's test succeeds for each one:
    every tick runs the check of every active stored subscription, whatever
    its interval and however recently it was checked. *)
Theorem cronTick_ignores_interval {H : Host} (W : World) (now : Z) (s : State) :
  find_error W = None ->
  (forall r, _lastCheck (hydrate r) = None /\ isDue now (hydrate r) = true)
  /\ cronTick W now s
     = allSettled W (map (fun r => set__lastCheck now (hydrate r))
                         (List.filter Stored.active (collection W))) s
  /\ length (fst (cronTick W now s))
     = length (List.filter Stored.active (collection W)).
Proof.
  intros Hfind.
  assert (Htick : cronTick W now s
                  = allSettled W (map (fun r => set__lastCheck now (hydrate r))
                                      (List.filter Stored.active (collection W))) s).
  { unfold cronTick, findActive. rewrite Hfind, toRun_loaded. reflexivity. }
  split; [intros r; split; reflexivity |].
  split; [exact Htick |].
  rewrite Htick, allSettled_length, length_map. reflexivity.
Qed.

(** An active subscription stored with an interval of one hour next to
    one that is switched off, and two ticks one minute apart. The first
    tick posts item [b] and saves; the second tick loads what was saved and
    runs the check again, 60000 ms after the first, although the interval
    is 3600000 ms. *)
Lemma cronTick_ignores_interval_witness :
  let t1 := 1704153660000 in
  let t2 := 1704153720000 in
  let W1 := Inputs.world 0 Inputs.feedAB [Inputs.hourlyDoc; Inputs.pausedDoc] in
  let flux1 := set_lastPubDate (Num 1704153600000)
                 (set_lastItem "https://news.example/b"
                    (set__lastCheck t1 (hydrate Inputs.hourlyDoc))) in
  let W2 := Inputs.world 0 Inputs.feedAB (store (persisted flux1) (collection W1)) in
  let tick1 := cronTick (H := Example.host) W1 t1 Inputs.start in
  let tick2 := cronTick (H := Example.host) W2 t2 (snd tick1) in
  Stored.interval Inputs.hourlyDoc = Num 3600000
  /\ fst tick1 = [(Delivered, flux1)]
  /\ _lastCheck flux1 = Some t1
  /\ collection W2
     = [Stored.with_lastItem "https://news.example/b" Inputs.hourlyDoc;
        Inputs.pausedDoc]
  /\ t2 - t1 < 3600000
  /\ length (fst tick2) = 1%nat
  /\ map fst (fst tick2) = [NoNovelty].
Proof.
  intros t1 t2 W1 flux1 W2 tick1 tick2.
  split; [reflexivity |]. split; [vm_compute; reflexivity |].
  split; [reflexivity |]. split; [reflexivity |]. split; [reflexivity |].
  split.
  - exact (proj2 (proj2 (cronTick_ignores_interval (H := Example.host) W2 t2 (snd tick1)
                           eq_refl))).
  - vm_compute. reflexivity.
Defined.

(** ** The retrying transport *)

Lemma requests_app (a b : list Event) : requests (a ++ b) = requests a ++ requests b.
Proof.
  induction a as [|e a IH]; simpl; [reflexivity |].
  destruct e; simpl; rewrite IH; reflexivity.
Qed.

Lemma retryMs_default (o : JsonFields) : retry_after o = None -> retryMs o = Num 1000.
Proof. unfold retryMs. intros ->. reflexivity. Qed.

Lemma retryMs_falsy (o : JsonFields) (v : Scalar) :
  retry_after o = Some v -> Scalar_truthy v = false -> retryMs o = Num 1000.
Proof. unfold retryMs. intros -> ->. reflexivity. Qed.

Lemma retryMs_truthy (o : JsonFields) (v : Scalar) :
  retry_after o = Some v -> Scalar_truthy v = true ->
  retryMs o = Math_ceil (double_mul (ToNumber v) (double_of_Z 1000)).
Proof. unfold retryMs. intros -> ->. reflexivity. Qed.

Section TransportProperties.
Context (W : World).

Lemma discordFetch_unfold (req : Request) (retries : nat) (s : State) :
  discordFetch W req retries s
  = match fetch W (calls s) req with
    | inl e => (inl e, emit (Fetched req) s)
    | inr resp =>
        match retries with
        | S r =>
            if status resp =? 429
            then discordFetch W req r
                   (emit (Slept (retryDelay (json resp))) (emit (Fetched req) s))
            else settle req resp (emit (Fetched req) s)
        | O => settle req resp (emit (Fetched req) s)
        end
    end.
Proof.
  destruct retries as [|r]; simpl; unfold bind, do_fetch;
    destruct (fetch W (calls s) req) as [e|resp]; try reflexivity.
  destruct (status resp =? 429); reflexivity.
Qed.

Lemma settle_state (req : Request) (resp : Response) (s : State) :
  snd (settle req resp s) = s.
Proof. unfold settle. destruct (negb (ok resp)); reflexivity. Qed.

(** What a call of [discordFetch] adds to the trace: the same request, one
    to [retries + 1] times, with waits in between; the cache is not
    touched. *)
Lemma discordFetch_events (req : Request) (retries : nat) (s : State) :
  exists evs k,
    trace (snd (discordFetch W req retries s)) = trace s ++ evs
    /\ requests evs = repeat req (S k)
    /\ (k <= retries)%nat
    /\ channelTypeCache (snd (discordFetch W req retries s)) = channelTypeCache s.
Proof.
  revert s. induction retries as [|r IH]; intros s; rewrite discordFetch_unfold.
  - destruct (fetch W (calls s) req) as [e|resp].
    + exists [Fetched req], 0%nat. simpl. auto.
    + rewrite settle_state. exists [Fetched req], 0%nat. simpl. auto.
  - destruct (fetch W (calls s) req) as [e|resp].
    + exists [Fetched req], 0%nat. simpl. repeat split; auto. lia.
    + destruct (status resp =? 429).
      * destruct (IH (emit (Slept (retryDelay (json resp))) (emit (Fetched req) s)))
          as (evs & k & Ht & Hr & Hk & Hc).
        exists (Fetched req :: Slept (retryDelay (json resp)) :: evs), (S k).
        rewrite Ht, Hc. simpl. rewrite Hr, <- !app_assoc. simpl.
        repeat split; auto. lia.
      * rewrite settle_state. exists [Fetched req], 0%nat. simpl.
        repeat split; auto. lia.
Qed.

(** C6, as amended. A 429 answer while retries remain makes
    [discordFetch] wait and then try again with one retry less. The timer
    is set to 1000 ms when the body is [null] or not JSON, or when its
    [retry_after] is absent or falsy (the number [0] included); for a truthy
    [retry_after] it is set to [Math.ceil] of the double product of that
    value, taken as a number, and 1000, which is [NaN] when the value is not
    numeric. A call started with 2 retries sends its request at most 3
    times. A non-success answer that is not retried (no retries left, or a
    status other than 429) fails with an error carrying the method, the
    URL, the status and the body text (empty when the text cannot be read);
    a success answer is returned. *)
Theorem discordFetch_rate_limit (req : Request) (s : State) :
  (forall r resp,
      fetch W (calls s) req = inr resp -> status resp = 429 ->
      discordFetch W req (S r) s
      = discordFetch W req r
          (emit (Slept (retryDelay (json resp))) (emit (Fetched req) s)))
  /\ (retryDelay JsonInvalid = Num 1000 /\ retryDelay JsonNull = Num 1000
      /\ (forall o, retry_after o = None -> retryDelay (JsonValue o) = Num 1000)
      /\ (forall o v, retry_after o = Some v -> Scalar_truthy v = false ->
            retryDelay (JsonValue o) = Num 1000)
      /\ (forall o v, retry_after o = Some v -> Scalar_truthy v = true ->
            retryDelay (JsonValue o)
            = Math_ceil (double_mul (ToNumber v) (double_of_Z 1000))))
  /\ (exists evs k,
        trace (snd (discordFetch W req 2 s)) = trace s ++ evs
        /\ requests evs = repeat req (S k) /\ (k <= 2)%nat)
  /\ (forall r resp,
        fetch W (calls s) req = inr resp -> ok resp = false ->
        status resp <> 429 \/ r = 0%nat ->
        discordFetch W req r s
        = (inl (DiscordError (method req) (url req) (status resp)
                             (default "" (text resp))),
           emit (Fetched req) s))
  /\ (forall r resp,
        fetch W (calls s) req = inr resp -> ok resp = true ->
        discordFetch W req r s = (inr resp, emit (Fetched req) s)).
Proof.
  split; [| split; [| split; [| split]]].
  - intros r resp Hf Hs. rewrite discordFetch_unfold, Hf, Hs. reflexivity.
  - split; [reflexivity |]. split; [reflexivity |].
    split; [exact retryMs_default |].
    split; [exact retryMs_falsy | exact retryMs_truthy].
  - destruct (discordFetch_events req 2 s) as (evs & k & Ht & Hr & Hk & _).
    exists evs, k. auto.
  - intros r resp Hf Hok Hcase. rewrite discordFetch_unfold, Hf.
    assert (Hsettle : settle req resp (emit (Fetched req) s)
                      = (inl (DiscordError (method req) (url req) (status resp)
                                           (default "" (text resp))),
                         emit (Fetched req) s)).
    { unfold settle. rewrite Hok. reflexivity. }
    destruct r as [|r]; [exact Hsettle |].
    destruct Hcase as [Hne | Hr]; [| discriminate].
    apply Z.eqb_neq in Hne. rewrite Hne. exact Hsettle.
  - intros r resp Hf Hok. rewrite discordFetch_unfold, Hf.
    assert (Hsettle : settle req resp (emit (Fetched req) s)
                      = (inr resp, emit (Fetched req) s)).
    { unfold settle. rewrite Hok. reflexivity. }
    destruct r as [|r]; [exact Hsettle |].
    assert (Hne : (status resp =? 429) = false).
    { apply Z.eqb_neq. intros E. unfold ok in Hok. rewrite E in Hok. discriminate. }
    rewrite Hne. exact Hsettle.
Qed.

End TransportProperties.

(** A 429 with [retry_after: 0.65]: a wait of 650 ms, then the retry
    (with [retry_after: 2.007] the double product is just above 2007 and
    the wait is 2008 ms); a 429 with no retries left: the error; a 200: the
    response. *)
Lemma discordFetch_rate_limit_witness :
  let W := Inputs.busyWorld 1 (Some (Inputs.decimal 65 2)) in
  let req := Inputs.getChannelRequest in
  discordFetch W req 2 Inputs.start
  = discordFetch W req 1 (emit (Slept (Num 650)) (emit (Fetched req) Inputs.start))
  /\ retryDelay (json (Inputs.rateLimited (Some (Inputs.decimal 65 2)))) = Num 650
  /\ retryDelay (json (Inputs.rateLimited (Some (Inputs.decimal 2007 3)))) = Num 2008
  /\ discordFetch W req 0 Inputs.start
     = (inl (DiscordError "GET" (url req) 429 "body"), emit (Fetched req) Inputs.start)
  /\ discordFetch (Inputs.world 0 Inputs.feedAB []) req 2 Inputs.start
     = (inr (Inputs.reply 200 (Inputs.channelJson 0)), emit (Fetched req) Inputs.start).
Proof.
  intros W req.
  pose proof (discordFetch_rate_limit W req Inputs.start)
    as (Hretry & (_ & _ & _ & _ & Hpos) & _ & Hfail & _).
  pose proof (discordFetch_rate_limit (Inputs.world 0 Inputs.feedAB []) req Inputs.start)
    as (_ & _ & _ & _ & Hok).
  split; [exact (Hretry 1%nat (Inputs.rateLimited (Some (Inputs.decimal 65 2)))
                        eq_refl eq_refl) |].
  split; [exact (Hpos (Inputs.retryBody (Some (Inputs.decimal 65 2)))
                      (Inputs.decimal 65 2) eq_refl eq_refl) |].
  split; [exact (Hpos (Inputs.retryBody (Some (Inputs.decimal 2007 3)))
                      (Inputs.decimal 2007 3) eq_refl eq_refl) |].
  split; [exact (Hfail 0%nat (Inputs.rateLimited (Some (Inputs.decimal 65 2)))
                       eq_refl eq_refl (or_intror eq_refl)) |].
  exact (Hok 2%nat (Inputs.reply 200 (Inputs.channelJson 0)) eq_refl eq_refl).
Defined.

(** C6 as stated fails in two ways. When the server specifies a delay of
    zero, the 429 body carrying [retry_after: 0], the transport waits
    1000 ms before it retries. When [retry_after] is a value that is no
    number, here the string ["soon"], the timer is not set to the 1000 ms
    default but to [NaN]. *)
Lemma discordFetch_zero_delay_waits_1000 :
  let zero := JsNumber (S754_zero false) in
  let req := Inputs.getChannelRequest in
  fetch (Inputs.busyWorld 1 (Some zero)) 0 req = inr (Inputs.rateLimited (Some zero))
  /\ trace (snd (discordFetch (Inputs.busyWorld 1 (Some zero)) req 2 Inputs.start))
     = [Fetched req; Slept (Num 1000); Fetched req]
  /\ Num 1000 <> Math_ceil (double_mul (ToNumber zero) (double_of_Z 1000))
  /\ trace (snd (discordFetch (Inputs.busyWorld 1 (Some Inputs.soon)) req 2 Inputs.start))
     = [Fetched req; Slept NaN; Fetched req]
  /\ NaN <> Num 1000.
Proof.
  split; [reflexivity |]. split; [reflexivity |]. split; [discriminate |].
  split; [reflexivity | discriminate].
Qed.

(** ** Strings: clamping *)

Lemma slice0_length (max : nat) (s : string) :
  (String.length (slice0 max s) <= max)%nat.
Proof.
  unfold slice0. revert s. induction max as [|m IH]; intros [|c r]; simpl; try lia.
  specialize (IH r). lia.
Qed.

Lemma slice0_short (max : nat) (s : string) :
  (String.length s <= max)%nat -> slice0 max s = s.
Proof.
  unfold slice0. revert s. induction max as [|m IH]; intros [|c r]; simpl; intros Hl;
    try reflexivity; try lia.
  rewrite IH; [reflexivity | lia].
Qed.

(** [clampTitle] keeps the first [max] code units of the trimmed title. *)
Lemma clampTitle_slice (t : option string) (max : nat) :
  clampTitle t max = slice0 max (trim (or_else t "Article")).
Proof.
  unfold clampTitle. simpl.
  destruct (max <? String.length (trim (or_else t "Article")))%nat eqn:E;
    [reflexivity |].
  apply Nat.ltb_ge in E. symmetry. apply slice0_short. exact E.
Qed.

Lemma clampTitle_length (t : option string) (max : nat) :
  (String.length (clampTitle t max) <= max)%nat.
Proof. rewrite clampTitle_slice. apply slice0_length. Qed.

Lemma or_else_some_empty (c : string) : or_else (Some c) "" = c.
Proof. unfold or_else, present. destruct c; reflexivity. Qed.

(** ** Delivery by channel type *)

Section GatewayProperties.
Context {H : Host} (W : World).

Lemma return_json_state (resp : Response) (s : State) :
  snd (return_json resp s) = s.
Proof. unfold return_json. destruct (json resp); reflexivity. Qed.

Lemma read_json_state (resp : Response) (s : State) :
  snd (read_json resp s) = s.
Proof. unfold read_json. destruct (json resp); reflexivity. Qed.

(** A request sent through [discordFetch] and whose answer is read with
    [return resp.json()] adds that request to the trace, one to three
    times. *)
Lemma post_events (req : Request) (s : State) :
  exists evs k,
    trace (snd ((resp <- discordFetch W req 2 ;; return_json resp) s))
    = trace s ++ evs
    /\ requests evs = repeat req (S k) /\ (k <= 2)%nat.
Proof.
  destruct (discordFetch_events W req 2 s) as (evs & k & Ht & Hr & Hk & _).
  exists evs, k. unfold bind.
  destruct (discordFetch W req 2 s) as [[e|resp] s1]; simpl in *.
  - auto.
  - rewrite return_json_state. auto.
Qed.

(** The channel lookup: nothing is sent when the channel is cached, and
    otherwise the lookup request, one to three times. *)
Lemma getChannel_events (channelId : string) (s : State) :
  exists evs k,
    trace (snd (getChannel W channelId s)) = trace s ++ evs
    /\ requests evs = repeat (lookupRequest channelId) k /\ (k <= 3)%nat.
Proof.
  unfold getChannel. destruct (channelTypeCache s !! channelId) as [cached|].
  - exists [], 0%nat. simpl. rewrite app_nil_r. auto with arith.
  - destruct (discordFetch_events W (lookupRequest channelId) 2 s)
      as (evs & k & Ht & Hr & Hk & _).
    exists evs, (S k). unfold bind.
    destruct (discordFetch W (lookupRequest channelId) 2 s) as [[e|resp] s1];
      simpl in *.
    + repeat split; auto. lia.
    + pose proof (read_json_state resp s1) as Hs.
      destruct (read_json resp s1) as [[e|o] s2]; simpl in *; subst s2;
        repeat split; auto; lia.
Qed.

Lemma sendToDiscord_unfold (channelId : string) (title : option string)
      (link : string) (s : State) :
  nonempty (or_else (DISCORD_TOKEN W) "") = true ->
  sendToDiscord W channelId title link s
  = match getChannel W channelId s with
    | (inl e, s0) => (inl e, s0)
    | (inr ch, s0) =>
        if type_is ch 15
        then createForumThread W channelId (clampTitle title 100)
                               (messageContent title link) s0
        else if type_is ch 0
        then postTextMessage W channelId (messageContent title link) s0
        else (inl (UnsupportedChannelType (channel_type ch)), s0)
    end.
Proof.
  intros Htok. unfold sendToDiscord. rewrite Htok. simpl. unfold bind.
  destruct (getChannel W channelId s) as [[e|ch] s0]; [reflexivity |].
  destruct (type_is ch 15); [reflexivity |].
  destruct (type_is ch 0); reflexivity.
Qed.

Lemma type_is_true (ch : ChannelInfo) (n : Z) :
  type_is ch n = true <-> channel_type ch = Some n.
Proof.
  unfold type_is. destruct (channel_type ch) as [t|].
  - rewrite Z.eqb_eq. split; congruence.
  - split; discriminate.
Qed.

Lemma type_is_false (ch : ChannelInfo) (n : Z) :
  type_is ch n = false <-> channel_type ch <> Some n.
Proof.
  rewrite <- type_is_true. destruct (type_is ch n); split; congruence.
Qed.

(** C5. With the token configured and the channel resolved to [ch]
    (a lookup that sends nothing but the lookup request), [sendToDiscord]
    does this: for type 15 it sends, through the retrying transport, only
    the thread-creation request, whose name is the title clamped to at most
    90 code units and whose auto-archive duration is 1440; for type 0 only
    the message request; for any other type it fails with
    [UnsupportedChannelType] in the state the lookup left, so without any
    further call. *)
Theorem sendToDiscord_by_channel_type (channelId : string) (title : option string)
        (link : string) (s s0 : State) (ch : ChannelInfo) :
  nonempty (or_else (DISCORD_TOKEN W) "") = true ->
  getChannel W channelId s = (inr ch, s0) ->
  let safeTitle := clampTitle title 100 in
  let content := messageContent title link in
  let name := slice0 90 (trim (or_else (Some safeTitle) "Article")) in
  let thread :=
    {| method := "POST"; url := channelUrl channelId +:+ "/threads";
       body := ThreadPayload name 1440
                 (trim (or_else (Some content) (or_else (Some safeTitle) "Article"))) |} in
  let message :=
    {| method := "POST"; url := channelUrl channelId +:+ "/messages";
       body := MessagePayload (trim content) |} in
  (String.length name <= 90)%nat
  /\ (exists evs k, trace s0 = trace s ++ evs
                    /\ requests evs = repeat (lookupRequest channelId) k
                    /\ (k <= 3)%nat)
  /\ (channel_type ch = Some 15 ->
      exists evs k,
        trace (snd (sendToDiscord W channelId title link s)) = trace s0 ++ evs
        /\ requests evs = repeat thread (S k) /\ (k <= 2)%nat)
  /\ (channel_type ch = Some 0 ->
      exists evs k,
        trace (snd (sendToDiscord W channelId title link s)) = trace s0 ++ evs
        /\ requests evs = repeat message (S k) /\ (k <= 2)%nat)
  /\ (channel_type ch <> Some 15 -> channel_type ch <> Some 0 ->
      sendToDiscord W channelId title link s
      = (inl (UnsupportedChannelType (channel_type ch)), s0)).
Proof.
  intros Htok Hch safeTitle content name thread message.
  assert (Hthread : thread = threadRequest channelId safeTitle content).
  { unfold thread, threadRequest, name. rewrite clampTitle_slice. reflexivity. }
  assert (Hmessage : message = messageRequest channelId content).
  { unfold message, messageRequest. rewrite or_else_some_empty. reflexivity. }
  split; [apply slice0_length |].
  split.
  { pose proof (getChannel_events channelId s) as Hev. rewrite Hch in Hev. exact Hev. }
  rewrite (sendToDiscord_unfold _ _ _ _ Htok), Hch.
  split; [| split].
  - intros Hty. apply type_is_true in Hty. rewrite Hty, Hthread.
    apply post_events.
  - intros Hty.
    assert (H15 : type_is ch 15 = false).
    { apply type_is_false. rewrite Hty. discriminate. }
    apply type_is_true in Hty. rewrite H15, Hty, Hmessage.
    apply post_events.
  - intros H15 H0. apply type_is_false in H15, H0. rewrite H15, H0. reflexivity.
Qed.

End GatewayProperties.

(** A forum channel and a title of 120 code units: one thread-creation
    request, with a name of 90 code units; a voice channel (type 2): the
    error, and no call after the lookup. *)
Lemma sendToDiscord_by_channel_type_witness :
  let id := "123456789012345678" in
  let link := "https://news.example/a" in
  (exists evs k name content,
      trace (snd (sendToDiscord (H := Example.host) (Inputs.world 15 Inputs.feedAB [])
                                id (Some Inputs.longTitle) link Inputs.start))
      = trace (Inputs.resolved 15) ++ evs
      /\ requests evs
         = repeat {| method := "POST"; url := channelUrl id +:+ "/threads";
                     body := ThreadPayload name 1440 content |} (S k)
      /\ String.length name = 90%nat)
  /\ sendToDiscord (H := Example.host) (Inputs.world 2 Inputs.feedAB [])
                   id (Some Inputs.longTitle) link Inputs.start
     = (inl (UnsupportedChannelType (Some 2)), Inputs.resolved 2).
Proof.
  intros id link. split.
  - destruct (sendToDiscord_by_channel_type (H := Example.host)
                (Inputs.world 15 Inputs.feedAB []) id (Some Inputs.longTitle) link
                Inputs.start (Inputs.resolved 15) (Inputs.channel 15)
                eq_refl eq_refl)
      as (_ & _ & Hforum & _ & _).
    destruct (Hforum eq_refl) as (evs & k & Ht & Hr & _).
    eexists evs, k, _, _. split; [exact Ht |]. split; [exact Hr |].
    vm_compute. reflexivity.
  - destruct (sendToDiscord_by_channel_type (H := Example.host)
                (Inputs.world 2 Inputs.feedAB []) id (Some Inputs.longTitle) link
                Inputs.start (Inputs.resolved 2) (Inputs.channel 2)
                eq_refl eq_refl)
      as (_ & _ & _ & _ & Hother).
    apply Hother; discriminate.
Defined.

(** ** The feed check *)

Section CheckProperties.
Context {H : Host} (W : World).

(** The check once the feed is fetched and has items. *)
Lemma checkFlux_try_fetched (flux : Flux) (s : State) (feed : Feed)
      (first : Item) (rest : list Item) :
  isValidUrl (rssUrl flux) = true ->
  parseRssWithTimeout W (rssUrl flux) 20000 = inr feed ->
  items feed = Some (first :: rest) ->
  checkFlux_try W flux s
  = let latest := selectLatest first (first :: rest) in
    let latestLink := sanitizeLink (getItemLinkOrGuid latest) in
    let latestDate := getItemDate latest in
    if negb (nonempty latestLink) then (inr NoLink, flux, s)
    else if noNovelty flux latestLink latestDate then (inr NoNovelty, flux, s)
    else
      match sendToDiscord W (discordTarget flux) (title latest) latestLink s with
      | (inl e, s1) => (inl (Delivering, e), flux, s1)
      | (inr _, s1) =>
          let flux2 :=
            if truthy latestDate
            then set_lastPubDate latestDate (set_lastItem latestLink flux)
            else set_lastItem latestLink flux in
          match save W flux2 with
          | inl e => (inl (Saving, e), flux2, s1)
          | inr _ => (inr Delivered, flux2, emit (Saved flux2) s1)
          end
      end.
Proof.
  intros Hvalid Hfeed Hitems. unfold checkFlux_try.
  rewrite Hvalid, Hfeed, Hitems. reflexivity.
Qed.

Lemma sanitizeLink_empty (l : string) :
  host_rejects_empty H -> l = "" \/ isValidUrl (trim l) = false ->
  sanitizeLink l = "".
Proof.
  unfold host_rejects_empty. intros Hempty [-> | Hinv]; unfold sanitizeLink.
  - unfold isValidUrl. change (trim "") with "". rewrite Hempty. reflexivity.
  - simpl. rewrite Hinv. reflexivity.
Qed.

(** C4. When the feed is fetched and the selected item's candidate
    link ([link], else [guid]) is empty or does not pass the URL check that
    [sanitizeLink] makes on it, the check returns without any call to
    Discord and leaves the subscription and the process state as they
    were. *)
Theorem checkFlux_invalid_link_not_delivered (flux : Flux) (s : State) (feed : Feed)
        (first : Item) (rest : list Item) :
  host_rejects_empty H ->
  isValidUrl (rssUrl flux) = true ->
  parseRssWithTimeout W (rssUrl flux) 20000 = inr feed ->
  items feed = Some (first :: rest) ->
  let candidate := getItemLinkOrGuid (selectLatest first (first :: rest)) in
  candidate = "" \/ isValidUrl (trim candidate) = false ->
  checkFlux W flux s = (NoLink, flux, s).
Proof.
  intros Hempty Hvalid Hfeed Hitems candidate Hbad.
  unfold checkFlux. rewrite (checkFlux_try_fetched _ _ _ _ _ Hvalid Hfeed Hitems).
  simpl. fold candidate. rewrite (sanitizeLink_empty _ Hempty Hbad). reflexivity.
Qed.

End CheckProperties.

(** An item whose link is ["not a url"]: the check stops at the link. *)
Lemma checkFlux_invalid_link_not_delivered_witness :
  checkFlux (H := Example.host) (Inputs.world 0 Inputs.feedBadLink [])
            (Inputs.subscription None None) Inputs.start
  = (NoLink, Inputs.subscription None None, Inputs.start).
Proof.
  apply (checkFlux_invalid_link_not_delivered (H := Example.host)
           (Inputs.world 0 Inputs.feedBadLink []) (Inputs.subscription None None)
           Inputs.start Inputs.feedBadLink (Inputs.item "not a url" None) []);
    try reflexivity.
  right. reflexivity.
Defined.

(** ** What a run adds to the trace *)

Lemma adds_refl (P : Event -> bool) (s : State) : adds P s s.
Proof. exists []. rewrite app_nil_r. auto. Qed.

Lemma adds_trans (P : Event -> bool) (s1 s2 s3 : State) :
  adds P s1 s2 -> adds P s2 s3 -> adds P s1 s3.
Proof.
  intros (e1 & H1 & P1) (e2 & H2 & P2). exists (e1 ++ e2).
  rewrite H2, H1, app_assoc, forallb_app, P1, P2. auto.
Qed.

Lemma adds_emit (P : Event -> bool) (e : Event) (s : State) :
  P e = true -> adds P s (emit e s).
Proof. intros He. exists [e]. simpl. rewrite He. auto. Qed.

Lemma adds_weaken (P Q : Event -> bool) (s s' : State) :
  (forall e, P e = true -> Q e = true) -> adds P s s' -> adds Q s s'.
Proof.
  intros HPQ (evs & Ht & HP). exists evs. split; [exact Ht |].
  rewrite forallb_forall in *. auto.
Qed.

Lemma adds_cache_set (P : Event -> bool) (k : string) (v : ChannelInfo) (s : State) :
  adds P s (cache_set k v s).
Proof. exists []. simpl. rewrite app_nil_r. auto. Qed.

Create HintDb trace.
#[local] Hint Resolve adds_refl adds_emit adds_cache_set : trace.

Section NetworkOnly.
Context {H : Host} (W : World).

Lemma discordFetch_network (req : Request) (retries : nat) (s : State) :
  adds is_network s (snd (discordFetch W req retries s)).
Proof.
  revert s. induction retries as [|r IH]; intros s; rewrite discordFetch_unfold;
    destruct (fetch W (calls s) req) as [e|resp]; simpl; auto with trace;
    try (rewrite settle_state; auto with trace).
  destruct (status resp =? 429).
  - eapply adds_trans; [| apply IH].
    eapply adds_trans; apply adds_emit; reflexivity.
  - rewrite settle_state. auto with trace.
Qed.

Lemma post_network (req : Request) (s : State) :
  adds is_network s (snd ((resp <- discordFetch W req 2 ;; return_json resp) s)).
Proof.
  pose proof (discordFetch_network req 2 s) as Hn. unfold bind.
  destruct (discordFetch W req 2 s) as [[e|resp] s1]; simpl in *; [exact Hn |].
  rewrite return_json_state. exact Hn.
Qed.

Lemma getChannel_network (channelId : string) (s : State) :
  adds is_network s (snd (getChannel W channelId s)).
Proof.
  unfold getChannel. destruct (channelTypeCache s !! channelId) as [cached|];
    [apply adds_refl |].
  pose proof (discordFetch_network (lookupRequest channelId) 2 s) as Hn. unfold bind.
  destruct (discordFetch W (lookupRequest channelId) 2 s) as [[e|resp] s1];
    simpl in *; [exact Hn |].
  pose proof (read_json_state resp s1) as Hs.
  destruct (read_json resp s1) as [[e|o] s2]; simpl in *; subst s2; [exact Hn |].
  eapply adds_trans; [exact Hn | auto with trace].
Qed.

(** A delivery adds nothing but HTTP calls and waits to the trace. *)
Lemma sendToDiscord_network (channelId : string) (title : option string)
      (link : string) (s : State) :
  adds is_network s (snd (sendToDiscord W channelId title link s)).
Proof.
  destruct (nonempty (or_else (DISCORD_TOKEN W) "")) eqn:Htok.
  - rewrite (sendToDiscord_unfold W _ _ _ _ Htok).
    pose proof (getChannel_network channelId s) as Hn.
    destruct (getChannel W channelId s) as [[e|ch] s0]; simpl in *; [exact Hn |].
    destruct (type_is ch 15); [| destruct (type_is ch 0)].
    + eapply adds_trans; [exact Hn | apply post_network].
    + eapply adds_trans; [exact Hn | apply post_network].
    + exact Hn.
  - unfold sendToDiscord. rewrite Htok. simpl. auto with trace.
Qed.

End NetworkOnly.

(** ** First delivery and repeated polling *)

Section DeliveryProperties.
Context {H : Host}.

Lemma eqb_empty_nonempty (l : string) : nonempty l = true -> String.eqb "" l = false.
Proof. destruct l; [discriminate | reflexivity]. Qed.

(** The gates are open for a subscription that has recorded nothing. *)
Lemma noNovelty_fresh (flux : Flux) (l : string) (d : number) :
  present (lastItem flux) = None -> lastPubDate flux = None ->
  nonempty l = true -> noNovelty flux l d = false.
Proof.
  intros Hl Hp Hn. unfold noNovelty. rewrite Hp. simpl. rewrite orb_false_r.
  unfold present in Hl. destruct (lastItem flux) as [x|]; [| reflexivity].
  destruct x; [apply eqb_empty_nonempty; exact Hn | discriminate].
Qed.

(** The link gate is shut for the link just recorded. *)
Lemma noNovelty_same_link (flux : Flux) (l : string) (d : number) :
  lastItem flux = Some l -> noNovelty flux l d = true.
Proof. intros Hl. unfold noNovelty. rewrite Hl, String.eqb_refl. reflexivity. Qed.

(** The date gate needs [lastPubDate]; without it only the links are
    compared. *)
Lemma noNovelty_no_date (flux : Flux) (l : string) (d : number) :
  lastPubDate flux = None ->
  noNovelty flux l d = match lastItem flux with
                       | Some x => String.eqb x l
                       | None => false
                       end.
Proof. intros Hp. unfold noNovelty. rewrite Hp. simpl. apply orb_false_r. Qed.

(** C1. The link is recorded and the date is not. Take a stored
    subscription that has recorded no link, loaded for the tick at [now],
    and a fetched item list whose selected item has a valid link and a
    non-zero date. When Discord accepts the post and the database the
    write, the check posts that item (its one use of Discord is the call of
    [sendToDiscord] with the item's title and link), sets the link and the
    date on the document object and saves it. What the save writes are the
    paths of the schema: the stored document gets the link and is otherwise
    as it was, and the document that the next query builds has the link
    and no [lastPubDate]. *)
Theorem checkFlux_first_delivery_loses_date (W : World) (r : Stored.doc) (now : Z)
        (s : State) (feed : Feed) (first : Item) (rest : list Item) (s1 : State) :
  let flux := set__lastCheck now (hydrate r) in
  isValidUrl (rssUrl flux) = true ->
  parseRssWithTimeout W (rssUrl flux) 20000 = inr feed ->
  items feed = Some (first :: rest) ->
  present (Stored.lastItem r) = None ->
  let latest := selectLatest first (first :: rest) in
  let latestLink := sanitizeLink (getItemLinkOrGuid latest) in
  let latestDate := getItemDate latest in
  nonempty latestLink = true ->
  truthy latestDate = true ->
  sendToDiscord W (discordTarget flux) (title latest) latestLink s = (inr tt, s1) ->
  save W (set_lastPubDate latestDate (set_lastItem latestLink flux)) = inr tt ->
  exists flux',
    checkFlux W flux s = (Delivered, flux', emit (Saved flux') s1)
    /\ lastItem flux' = Some latestLink
    /\ lastPubDate flux' = Some latestDate
    /\ persisted flux' = Stored.with_lastItem latestLink r
    /\ lastItem (hydrate (persisted flux')) = Some latestLink
    /\ lastPubDate (hydrate (persisted flux')) = None.
Proof.
  intros flux Hvalid Hfeed Hitems Hlast latest latestLink latestDate Hlink Hdate
         Hsend Hsave.
  exists (set_lastPubDate latestDate (set_lastItem latestLink flux)).
  split; [| repeat split].
  unfold checkFlux. rewrite (checkFlux_try_fetched _ _ _ _ _ _ Hvalid Hfeed Hitems).
  cbv zeta. fold latest. fold latestLink. fold latestDate.
  rewrite Hlink, (noNovelty_fresh flux latestLink latestDate Hlast eq_refl Hlink).
  cbv [negb]. rewrite Hsend, Hdate, Hsave. reflexivity.
Qed.

(** C3. The date gate never fires. A document of the loop has no
    [lastPubDate], whatever earlier checks have posted, so the test
    compares links only: an item with a valid link other than the stored
    [lastItem] goes to [sendToDiscord] whatever its date, and is recorded
    when the post succeeds. *)
Theorem checkFlux_date_gate_never_fires (W : World) (r : Stored.doc) (now : Z)
        (s : State) (feed : Feed) (first : Item) (rest : list Item)
        (res : result unit) (s1 : State) :
  let flux := set__lastCheck now (hydrate r) in
  isValidUrl (rssUrl flux) = true ->
  parseRssWithTimeout W (rssUrl flux) 20000 = inr feed ->
  items feed = Some (first :: rest) ->
  let latest := selectLatest first (first :: rest) in
  let latestLink := sanitizeLink (getItemLinkOrGuid latest) in
  let latestDate := getItemDate latest in
  nonempty latestLink = true ->
  Stored.lastItem r <> Some latestLink ->
  sendToDiscord W (discordTarget flux) (title latest) latestLink s = (res, s1) ->
  noNovelty flux latestLink latestDate = false
  /\ exists o flux' s',
       checkFlux W flux s = (o, flux', s')
       /\ match res with
          | inl e => o = Failed Delivering e
          | inr _ => delivered o = true /\ lastItem flux' = Some latestLink
          end.
Proof.
  intros flux Hvalid Hfeed Hitems latest latestLink latestDate Hlink Hnew Hsend.
  assert (Hgate : noNovelty flux latestLink latestDate = false).
  { rewrite noNovelty_no_date by reflexivity. simpl.
    destruct (Stored.lastItem r) as [x|]; [| reflexivity].
    apply String.eqb_neq. congruence. }
  split; [exact Hgate |].
  unfold checkFlux. rewrite (checkFlux_try_fetched _ _ _ _ _ _ Hvalid Hfeed Hitems).
  cbv zeta. fold latest. fold latestLink. fold latestDate.
  rewrite Hlink, Hgate. cbv [negb]. rewrite Hsend.
  destruct res as [e|u]; [eauto |].
  destruct (truthy latestDate);
    (destruct (save W _) as [e|u']; do 3 eexists; (split; [reflexivity |]);
     split; reflexivity).
Qed.

(** A check that posted the item went through every gate and recorded
    the item's link. *)
Lemma checkFlux_delivered_inv (W : World) (flux : Flux) (s : State) (o : Outcome)
      (flux1 : Flux) (s1 : State) :
  checkFlux W flux s = (o, flux1, s1) -> delivered o = true ->
  exists feed first rest,
    isValidUrl (rssUrl flux) = true
    /\ parseRssWithTimeout W (rssUrl flux) 20000 = inr feed
    /\ items feed = Some (first :: rest)
    /\ nonempty (sanitizeLink (getItemLinkOrGuid (selectLatest first (first :: rest))))
       = true
    /\ lastItem flux1
       = Some (sanitizeLink (getItemLinkOrGuid (selectLatest first (first :: rest))))
    /\ rssUrl flux1 = rssUrl flux.
Proof.
  unfold checkFlux, checkFlux_try.
  destruct (isValidUrl (rssUrl flux)) eqn:Hvalid; simpl;
    [| intros Heq; inversion Heq; subst; discriminate].
  destruct (parseRssWithTimeout W (rssUrl flux) 20000) as [e|feed] eqn:Hfeed;
    [intros Heq; inversion Heq; subst; discriminate |].
  destruct (items feed) as [[|first rest]|] eqn:Hitems; simpl;
    try (intros Heq; inversion Heq; subst; discriminate).
  destruct (nonempty (sanitizeLink _)) eqn:Hlink; simpl;
    [| intros Heq; inversion Heq; subst; discriminate].
  destruct (noNovelty flux _ _);
    [intros Heq; inversion Heq; subst; discriminate |].
  destruct (sendToDiscord W _ _ _ s) as [[e|u] s0];
    [intros Heq; inversion Heq; subst; discriminate |].
  intros Heq Hd. exists feed, first, rest.
  repeat (split; [assumption || reflexivity |]).
  destruct (truthy _); destruct (save W _); inversion Heq; subst; auto.
Qed.

(** C2. After a check that posted the selected item and left the
    document [flux1], a second check that fetches the same feed document
    posts nothing: run on [flux1], or on any document [again] with the URL
    and the [lastItem] of [flux1], it leaves by the link gate with the
    subscription and the process state untouched. *)
Theorem checkFlux_idempotent (W1 W2 : World) (flux : Flux) (s : State) (o : Outcome)
        (flux1 : Flux) (s1 : State) (again : Flux) (s2 : State) :
  checkFlux W1 flux s = (o, flux1, s1) ->
  delivered o = true ->
  parseRssWithTimeout W2 (rssUrl flux) 20000
  = parseRssWithTimeout W1 (rssUrl flux) 20000 ->
  rssUrl again = rssUrl flux1 ->
  lastItem again = lastItem flux1 ->
  checkFlux W2 flux1 s2 = (NoNovelty, flux1, s2)
  /\ checkFlux W2 again s2 = (NoNovelty, again, s2).
Proof.
  intros Hfirst Hd Hsame Hurl2 Hlast2.
  destruct (checkFlux_delivered_inv _ _ _ _ _ _ Hfirst Hd)
    as (feed & first & rest & Hvalid & Hfeed & Hitems & Hlink & Hlast & Hurl).
  rewrite Hfeed in Hsame. rewrite <- Hurl in Hvalid, Hsame.
  split.
  - unfold checkFlux. rewrite (checkFlux_try_fetched _ _ _ _ _ _ Hvalid Hsame Hitems).
    cbv zeta. rewrite Hlink, (noNovelty_same_link _ _ _ Hlast). reflexivity.
  - rewrite <- Hurl2 in Hvalid, Hsame. rewrite <- Hlast2 in Hlast.
    unfold checkFlux. rewrite (checkFlux_try_fetched _ _ _ _ _ _ Hvalid Hsame Hitems).
    cbv zeta. rewrite Hlink, (noNovelty_same_link _ _ _ Hlast). reflexivity.
Qed.

End DeliveryProperties.

(** The example of the specification: items [a] (dated [T1]) and [b]
    (dated [T2 > T1]) and no prior state. Item [b] is posted; the stored
    document gets its link, and the document loaded afterwards has the
    link and no date. *)
Lemma checkFlux_first_delivery_loses_date_witness :
  let W := Inputs.world 0 Inputs.feedAB [Inputs.hourlyDoc] in
  let flux := set__lastCheck 1704153660000 (hydrate Inputs.hourlyDoc) in
  exists flux',
    fst (checkFlux (H := Example.host) W flux Inputs.start) = (Delivered, flux')
    /\ lastItem flux' = Some "https://news.example/b"
    /\ lastPubDate flux' = Some (Num 1704153600000)
    /\ persisted flux' = Stored.with_lastItem "https://news.example/b" Inputs.hourlyDoc
    /\ findActive (Inputs.world 0 Inputs.feedAB (store (persisted flux') (collection W)))
       = inr [hydrate (persisted flux')]
    /\ lastItem (hydrate (persisted flux')) = Some "https://news.example/b"
    /\ lastPubDate (hydrate (persisted flux')) = None.
Proof.
  intros W flux.
  destruct (checkFlux_first_delivery_loses_date (H := Example.host) W Inputs.hourlyDoc
              1704153660000 Inputs.start Inputs.feedAB
              (Inputs.item "https://news.example/a" (Some Inputs.T1))
              [Inputs.item "https://news.example/b" (Some Inputs.T2)]
              (snd (sendToDiscord (H := Example.host) W "123456789012345678"
                      (Some "News") "https://news.example/b" Inputs.start))
              eq_refl eq_refl eq_refl eq_refl eq_refl eq_refl eq_refl eq_refl)
    as (flux' & Hc & Hl & Hd & Hp & Hl' & Hd').
  exists flux'. fold W flux in Hc. rewrite Hc, Hp.
  split; [reflexivity |]. split; [exact Hl |]. split; [exact Hd |].
  split; [reflexivity |]. split; [reflexivity |].
  rewrite <- Hp. split; [exact Hl' | exact Hd'].
Defined.

(** The second property of the specification. A first tick posts item
    [b], dated [T2]. For the next tick the feed lists item [c] only, dated
    [T1 < T2]: its link is new, its date is older than the date of the item
    posted before, and it is posted. *)
Lemma checkFlux_date_gate_never_fires_witness :
  let t1 := 1704153660000 in
  let t2 := 1704153720000 in
  let W1 := Inputs.world 0 Inputs.feedAB [Inputs.hourlyDoc] in
  let flux1 := set_lastPubDate (Num 1704153600000)
                 (set_lastItem "https://news.example/b"
                    (set__lastCheck t1 (hydrate Inputs.hourlyDoc))) in
  let W2 := Inputs.world 0 Inputs.feedOld (store (persisted flux1) (collection W1)) in
  let tick1 := cronTick (H := Example.host) W1 t1 Inputs.start in
  let tick2 := cronTick (H := Example.host) W2 t2 (snd tick1) in
  let c := Inputs.item "https://news.example/c" (Some Inputs.T1) in
  fst tick1 = [(Delivered, flux1)]
  /\ lastPubDate flux1 = Some (Num 1704153600000)
  /\ getItemDate (H := Example.host) c = Num 1704067200000
  /\ 1704067200000 <= 1704153600000
  /\ noNovelty (set__lastCheck t2 (hydrate (persisted flux1)))
               "https://news.example/c" (getItemDate (H := Example.host) c) = false
  /\ map fst (fst tick2) = [Delivered]
  /\ requests (trace (snd tick2))
     = requests (trace (snd tick1))
       ++ [messageRequest "123456789012345678"
                          ("News" +:+ LF +:+ "https://news.example/c")].
Proof.
  intros t1 t2 W1 flux1 W2 tick1 tick2 c.
  split; [vm_compute; reflexivity |]. split; [reflexivity |].
  split; [reflexivity |]. split; [lia |].
  split.
  - exact (proj1 (checkFlux_date_gate_never_fires (H := Example.host) W2
                    (persisted flux1) t2 (snd tick1) Inputs.feedOld c []
                    (inr tt)
                    (snd (sendToDiscord (H := Example.host) W2 "123456789012345678"
                            (Some "News") "https://news.example/c" (snd tick1)))
                    eq_refl eq_refl eq_refl eq_refl
                    ltac:(discriminate) eq_refl)).
  - split; vm_compute; reflexivity.
Defined.

(** The next check of the specification's example, on identical items:
    no delivery. *)
Lemma checkFlux_idempotent_witness :
  let W := Inputs.world 0 Inputs.feedAB [] in
  let r := checkFlux (H := Example.host) W (Inputs.subscription None None)
                     Inputs.start in
  fst (fst r) = Delivered
  /\ checkFlux (H := Example.host) W (snd (fst r)) (snd r)
     = (NoNovelty, snd (fst r), snd r).
Proof.
  intros W r. split; [reflexivity |].
  apply (checkFlux_idempotent (H := Example.host) W W (Inputs.subscription None None)
           Inputs.start (fst (fst r)) (snd (fst r)) (snd r) (snd (fst r)) (snd r));
    reflexivity.
Defined.

(** ** Errors stay inside the check *)

Section Containment.
Context {H : Host} (W : World).

Lemma network_no_cron_error (e : Event) : is_network e = true -> no_cron_error e = true.
Proof. destruct e; simpl; intros He; try discriminate; reflexivity. Qed.

(** A failed check: the error is the last thing logged, before it only
    the network was used, and the document is changed only when the very
    last step, the save, is the one that failed. *)
Lemma checkFlux_failed_inv (flux : Flux) (s : State) (st : Stage) (e : Error)
      (flux' : Flux) (s' : State) :
  checkFlux W flux s = (Failed st e, flux', s') ->
  exists s0,
    s' = emit (CheckError (rssUrl flux) e) s0
    /\ adds is_network s s0
    /\ (st <> Saving -> flux' = flux)
    /\ (st = Saving -> save W flux' = inl e).
Proof.
  unfold checkFlux, checkFlux_try.
  destruct (isValidUrl (rssUrl flux)); simpl; [| intros Heq; inversion Heq].
  destruct (parseRssWithTimeout W (rssUrl flux) 20000) as [e0|feed].
  { intros Heq; inversion Heq; subst. exists s.
    repeat split; auto with trace; discriminate. }
  destruct (default [] (items feed)) as [|first rest]; [intros Heq; inversion Heq |].
  destruct (negb _); [intros Heq; inversion Heq |].
  destruct (noNovelty flux _ _); [intros Heq; inversion Heq |].
  pose proof (sendToDiscord_network W (discordTarget flux)
                (title (selectLatest first (first :: rest)))
                (sanitizeLink (getItemLinkOrGuid (selectLatest first (first :: rest))))
                s) as Hnet.
  destruct (sendToDiscord W _ _ _ s) as [[e0|u] s0]; simpl in Hnet.
  { intros Heq; inversion Heq; subst. exists s0.
    repeat split; auto; discriminate. }
  destruct (truthy _);
    (destruct (save W _) as [e0|u'] eqn:Hsave; intros Heq; inversion Heq; subst;
     exists s0; repeat split; auto; congruence).
Qed.

(** Whatever a check does, it writes no scheduler error. *)
Lemma checkFlux_no_cron_error (flux : Flux) (s : State) :
  adds no_cron_error s (snd (checkFlux W flux s)).
Proof.
  unfold checkFlux, checkFlux_try.
  destruct (isValidUrl (rssUrl flux)); simpl; [| auto with trace].
  destruct (parseRssWithTimeout W (rssUrl flux) 20000) as [e0|feed]; simpl;
    [auto with trace |].
  destruct (default [] (items feed)) as [|first rest]; simpl; [auto with trace |].
  destruct (negb _); simpl; [auto with trace |].
  destruct (noNovelty flux _ _); simpl; [auto with trace |].
  pose proof (sendToDiscord_network W (discordTarget flux)
                (title (selectLatest first (first :: rest)))
                (sanitizeLink (getItemLinkOrGuid (selectLatest first (first :: rest))))
                s) as Hnet.
  apply (adds_weaken _ _ _ _ network_no_cron_error) in Hnet.
  destruct (sendToDiscord W _ _ _ s) as [[e0|u] s0]; simpl in *.
  { eapply adds_trans; [exact Hnet | auto with trace]. }
  destruct (truthy _); destruct (save W _); simpl;
    (eapply adds_trans; [exact Hnet | auto with trace]).
Qed.

(** Every pushed check settles, one result per check, and none of them
    writes a scheduler error. *)
Lemma allSettled_all (l : list Flux) (s : State) :
  Forall2 (fun doc r => exists sa sb, checkFlux W doc sa = (fst r, snd r, sb))
          l (fst (allSettled W l s))
  /\ adds no_cron_error s (snd (allSettled W l s)).
Proof.
  revert s. induction l as [|doc l IH]; intros s; simpl.
  - split; [constructor | apply adds_refl].
  - pose proof (checkFlux_no_cron_error doc s) as Hc.
    destruct (checkFlux W doc s) as [[o doc'] s1] eqn:Hcheck. simpl in Hc.
    destruct (IH s1) as [Hall Hadds].
    destruct (allSettled W l s1) as [restr s2]. simpl in *.
    split.
    + constructor; [| exact Hall]. exists s, s1. exact Hcheck.
    + eapply adds_trans; eassumption.
Qed.

(** C7. Every error thrown inside a check ends in its [catch]: the
    check returns, the error is logged, and nothing was saved. The
    document is as it was unless the throwing step was the final save,
    which comes after the fields are set; a failed fetch or a timeout, and
    a failed delivery (unsupported channel type, Discord error after the
    retries), therefore leave [lastItem] and [lastPubDate] unchanged. A
    tick whose query succeeds settles one check per due subscription,
    whatever the other checks did, and logs no scheduler error. *)
Theorem checkFlux_errors_contained (flux : Flux) (s : State) (now : Z) :
  (forall st e flux' s',
      checkFlux W flux s = (Failed st e, flux', s') ->
      exists s0,
        s' = emit (CheckError (rssUrl flux) e) s0
        /\ adds is_network s s0
        /\ (st <> Saving -> flux' = flux)
        /\ (st = Saving -> save W flux' = inl e))
  /\ (forall e,
        isValidUrl (rssUrl flux) = true ->
        parseRssWithTimeout W (rssUrl flux) 20000 = inl e ->
        checkFlux W flux s
        = (Failed Fetching e, flux, emit (CheckError (rssUrl flux) e) s))
  /\ (forall feed first rest e s1,
        isValidUrl (rssUrl flux) = true ->
        parseRssWithTimeout W (rssUrl flux) 20000 = inr feed ->
        items feed = Some (first :: rest) ->
        let latest := selectLatest first (first :: rest) in
        let latestLink := sanitizeLink (getItemLinkOrGuid latest) in
        nonempty latestLink = true ->
        noNovelty flux latestLink (getItemDate latest) = false ->
        sendToDiscord W (discordTarget flux) (title latest) latestLink s = (inl e, s1) ->
        checkFlux W flux s
        = (Failed Delivering e, flux, emit (CheckError (rssUrl flux) e) s1))
  /\ (find_error W = None ->
      Forall2 (fun doc r => exists sa sb, checkFlux W doc sa = (fst r, snd r, sb))
              (toRun now (map hydrate (List.filter Stored.active (collection W))))
              (fst (cronTick W now s))
      /\ adds no_cron_error s (snd (cronTick W now s))).
Proof.
  split; [| split; [| split]].
  - intros st e flux' s'. apply checkFlux_failed_inv.
  - intros e Hvalid Hfeed. unfold checkFlux, checkFlux_try.
    rewrite Hvalid, Hfeed. reflexivity.
  - intros feed first rest e s1 Hvalid Hfeed Hitems latest latestLink Hlink Hgate Hsend.
    unfold checkFlux. rewrite (checkFlux_try_fetched _ _ _ _ _ _ Hvalid Hfeed Hitems).
    cbv zeta. fold latest. fold latestLink. rewrite Hlink, Hgate, Hsend. reflexivity.
  - intros Hfind. unfold cronTick, findActive. rewrite Hfind. apply allSettled_all.
Qed.

End Containment.

(** A feed that never answers: the timeout is logged and the document is
    untouched. A voice channel: the delivery fails, same outcome. A tick
    over both a failing and a healthy subscription: the second check is
    run and posts its item. *)
Lemma checkFlux_errors_contained_witness :
  let slow := Inputs.slowDoc in
  let doc := Inputs.dueDoc in
  let W := Inputs.mixedWorld [persisted slow; persisted doc] in
  checkFlux (H := Example.host) W slow Inputs.start
  = (Failed Fetching TimeoutRSS, slow,
     emit (CheckError "https://slow.example/rss" TimeoutRSS) Inputs.start)
  /\ checkFlux (H := Example.host) (Inputs.world 2 Inputs.feedAB []) doc Inputs.start
     = (Failed Delivering (UnsupportedChannelType (Some 2)), doc,
        emit (CheckError "https://feed.example/rss" (UnsupportedChannelType (Some 2)))
             (Inputs.resolved 2))
  /\ Forall2 (fun d r => exists sa sb,
                  checkFlux (H := Example.host) W d sa = (fst r, snd r, sb))
             [set__lastCheck 2000 slow; set__lastCheck 2000 doc]
             (fst (cronTick (H := Example.host) W 2000 Inputs.start))
  /\ map fst (fst (cronTick (H := Example.host) W 2000 Inputs.start))
     = [Failed Fetching TimeoutRSS; Delivered].
Proof.
  intros slow doc W.
  split.
  { apply (proj1 (proj2 (checkFlux_errors_contained (H := Example.host) W slow
                           Inputs.start 2000))); reflexivity. }
  split.
  { apply (proj1 (proj2 (proj2 (checkFlux_errors_contained (H := Example.host)
                                  (Inputs.world 2 Inputs.feedAB []) doc
                                  Inputs.start 2000)))
             Inputs.feedAB
             (Inputs.item "https://news.example/a" (Some Inputs.T1))
             [Inputs.item "https://news.example/b" (Some Inputs.T2)]);
      reflexivity. }
  split.
  { apply (proj2 (proj2 (proj2 (checkFlux_errors_contained (H := Example.host) W slow
                                  Inputs.start 2000))) eq_refl). }
  vm_compute. reflexivity.
Defined.

(** * Further properties of the code *)

(** ** The transport and the channel cache *)

Section TransportShape.
Context (W : World).

(** X1. [discordFetch] hands a response to its caller only when that
    response is a success (status 200 to 299), and it is then the answer
    the world gave to this very request: a caller never sees a 429 or any
    other failure as a value. *)
Theorem discordFetch_returns_success_only (req : Request) (retries : nat)
        (s s' : State) (resp : Response) :
  discordFetch W req retries s = (inr resp, s') ->
  ok resp = true /\ status resp <> 429 /\ exists n, fetch W n req = inr resp.
Proof.
  revert s. induction retries as [|r IH]; intros s; rewrite discordFetch_unfold;
    destruct (fetch W (calls s) req) as [e|answer] eqn:Hf; try discriminate.
  - unfold settle. destruct (ok answer) eqn:Hok; simpl; [| discriminate].
    intros Heq. inversion Heq; subst. split; [exact Hok |]. split; [| eauto].
    intros E. unfold ok in Hok. rewrite E in Hok. discriminate.
  - destruct (status answer =? 429) eqn:H429; [apply IH |].
    unfold settle. destruct (ok answer) eqn:Hok; simpl; [| discriminate].
    intros Heq. inversion Heq; subst. split; [exact Hok |]. split; [| eauto].
    apply Z.eqb_neq. exact H429.
Qed.

(** X2. What one call of [discordFetch] does on the network: it sends
    the request, and then, once per wait, it waits and sends the same
    request again. There are at most [retries] waits, each wait is the
    delay read from a 429 answer to this request, and a first answer that
    is not a 429 ends the call after a single request. *)
Theorem discordFetch_waits_between_attempts (req : Request) (retries : nat) (s : State) :
  exists delays,
    trace (snd (discordFetch W req retries s))
    = trace s ++ Fetched req :: List.flat_map (fun d => [Slept d; Fetched req]) delays
    /\ (length delays <= retries)%nat
    /\ Forall (fun d => exists n answer, fetch W n req = inr answer
                                          /\ status answer = 429
                                          /\ d = retryDelay (json answer)) delays
    /\ (forall answer, fetch W (calls s) req = inr answer -> status answer <> 429 ->
          delays = []).
Proof.
  revert s. induction retries as [|r IH]; intros s; rewrite discordFetch_unfold.
  - exists []. destruct (fetch W (calls s) req) as [e|answer];
      [| rewrite settle_state]; simpl; repeat split; auto.
  - destruct (fetch W (calls s) req) as [e|answer] eqn:Hf.
    + exists []. simpl. repeat split; auto with arith; discriminate.
    + destruct (status answer =? 429) eqn:H429.
      * apply Z.eqb_eq in H429.
        destruct (IH (emit (Slept (retryDelay (json answer))) (emit (Fetched req) s)))
          as (delays & Ht & Hl & Hall & _).
        exists (retryDelay (json answer) :: delays). rewrite Ht. simpl.
        rewrite <- !app_assoc. simpl.
        split; [reflexivity |]. split; [lia |]. split.
        { constructor; [| exact Hall]. exists (calls s), answer. auto. }
        intros answer' Heq Hne. inversion Heq; subst. contradiction.
      * rewrite settle_state. exists []. simpl. repeat split; auto with arith.
Qed.

End TransportShape.

Section CacheProperties.
Context {H : Host} (W : World).

Lemma discordFetch_cache (req : Request) (retries : nat) (s : State) :
  channelTypeCache (snd (discordFetch W req retries s)) = channelTypeCache s.
Proof.
  destruct (discordFetch_events W req retries s) as (evs & k & _ & _ & _ & Hc).
  exact Hc.
Qed.

Lemma post_cache (req : Request) (s : State) :
  channelTypeCache (snd ((resp <- discordFetch W req 2 ;; return_json resp) s))
  = channelTypeCache s.
Proof.
  pose proof (discordFetch_cache req 2 s) as Hc. unfold bind.
  destruct (discordFetch W req 2 s) as [[e|resp] s1]; simpl in *; [exact Hc |].
  rewrite return_json_state. exact Hc.
Qed.

(** The lookup either leaves the cache as it is or adds the entry of the
    channel it returns. *)
Lemma getChannel_cache (channelId : string) (s : State) :
  match getChannel W channelId s with
  | (inr ch, s1) =>
      channelTypeCache s !! channelId = Some ch /\ s1 = s
      \/ channelTypeCache s !! channelId = None
         /\ channelTypeCache s1 = <[channelId := ch]> (channelTypeCache s)
  | (inl _, s1) =>
      channelTypeCache s !! channelId = None
      /\ channelTypeCache s1 = channelTypeCache s
  end.
Proof.
  unfold getChannel. destruct (channelTypeCache s !! channelId) as [cached|] eqn:Hc.
  - left. auto.
  - pose proof (discordFetch_cache (lookupRequest channelId) 2 s) as Hd. unfold bind.
    destruct (discordFetch W (lookupRequest channelId) 2 s) as [[e|resp] s1];
      simpl in *; [auto |].
    pose proof (read_json_state resp s1) as Hs.
    destruct (read_json resp s1) as [[e|o] s2]; simpl in *; subst s2; [auto |].
    right. simpl. rewrite Hd. auto.
Qed.

(** X3. Once a channel has been resolved, resolving it again returns the
    same channel information from the cache, in whatever state of Discord,
    without any call and without changing the state. *)
Theorem getChannel_cached_after_success (W' : World) (channelId : string)
        (s s1 : State) (ch : ChannelInfo) :
  getChannel W channelId s = (inr ch, s1) ->
  channelTypeCache s1 !! channelId = Some ch
  /\ getChannel W' channelId s1 = (inr ch, s1).
Proof.
  intros Hg. pose proof (getChannel_cache channelId s) as Hc. rewrite Hg in Hc.
  assert (Hl : channelTypeCache s1 !! channelId = Some ch).
  { destruct Hc as [[Hhit ->] | [_ ->]]; [exact Hhit | apply lookup_insert_eq]. }
  split; [exact Hl |]. unfold getChannel. rewrite Hl. reflexivity.
Qed.

(** X4. A delivery never removes or replaces a cache entry. The cache
    after [sendToDiscord] agrees with the cache before on every other
    channel, is unchanged when the channel was cached already, and is
    unchanged when the channel could not be resolved. *)
Theorem sendToDiscord_cache_frame (channelId : string) (title : option string)
        (link : string) (s : State) :
  let s' := snd (sendToDiscord W channelId title link s) in
  (forall k, k <> channelId -> channelTypeCache s' !! k = channelTypeCache s !! k)
  /\ (forall k v, channelTypeCache s !! k = Some v -> channelTypeCache s' !! k = Some v)
  /\ (forall e s0, getChannel W channelId s = (inl e, s0) ->
        channelTypeCache s' = channelTypeCache s).
Proof.
  intros s'.
  assert (Hcases :
            channelTypeCache s' = channelTypeCache s
            \/ channelTypeCache s !! channelId = None
               /\ (exists ch, getChannel W channelId s = (inr ch, snd (getChannel W channelId s))
                              /\ channelTypeCache s'
                                 = <[channelId := ch]> (channelTypeCache s))).
  { subst s'. destruct (nonempty (or_else (DISCORD_TOKEN W) "")) eqn:Htok.
    - rewrite (sendToDiscord_unfold W _ _ _ _ Htok).
      pose proof (getChannel_cache channelId s) as Hc.
      destruct (getChannel W channelId s) as [[e|ch] s0]; simpl.
      + left. tauto.
      + assert (Hpost : channelTypeCache
                          (snd (if type_is ch 15
                                then createForumThread W channelId (clampTitle title 100)
                                       (messageContent title link) s0
                                else if type_is ch 0
                                then postTextMessage W channelId
                                       (messageContent title link) s0
                                else (inl (UnsupportedChannelType (channel_type ch)), s0)))
                        = channelTypeCache s0).
        { destruct (type_is ch 15); [apply post_cache |].
          destruct (type_is ch 0); [apply post_cache | reflexivity]. }
        rewrite Hpost. destruct Hc as [[_ ->] | [Hnone Hins]]; [left; reflexivity |].
        right. split; [exact Hnone |]. exists ch. auto.
    - left. unfold sendToDiscord. rewrite Htok. reflexivity. }
  split; [| split].
  - intros k Hk. destruct Hcases as [-> | (_ & ch & _ & ->)]; [reflexivity |].
    apply lookup_insert_ne. congruence.
  - intros k v Hkv. destruct Hcases as [-> | (Hnone & ch & _ & ->)]; [exact Hkv |].
    rewrite lookup_insert_ne; [exact Hkv |]. intros ->. congruence.
  - intros e s0 Hg. destruct Hcases as [-> | (_ & ch & Hok & _)]; [reflexivity |].
    rewrite Hg in Hok. discriminate.
Qed.

End CacheProperties.

(** A 429 and then a 200: the value returned is the 200. *)
Lemma discordFetch_returns_success_only_witness :
  let W := Inputs.busyWorld 1 (Some (Inputs.decimal 65 2)) in
  let answer := Inputs.reply 200 (Inputs.channelJson 0) in
  ok answer = true /\ status answer <> 429
  /\ exists n, fetch W n Inputs.getChannelRequest = inr answer.
Proof.
  intros W answer.
  apply (discordFetch_returns_success_only W Inputs.getChannelRequest 2 Inputs.start
           (snd (discordFetch W Inputs.getChannelRequest 2 Inputs.start)) answer).
  reflexivity.
Defined.

(** A first answer of 200: one request and no wait. *)
Lemma discordFetch_waits_between_attempts_witness :
  let W := Inputs.world 0 Inputs.feedAB [] in
  exists delays,
    trace (snd (discordFetch W Inputs.getChannelRequest 2 Inputs.start))
    = trace Inputs.start
      ++ Fetched Inputs.getChannelRequest
         :: List.flat_map (fun d => [Slept d; Fetched Inputs.getChannelRequest]) delays
    /\ delays = [].
Proof.
  intros W.
  destruct (discordFetch_waits_between_attempts W Inputs.getChannelRequest 2 Inputs.start)
    as (delays & Ht & _ & _ & Hfirst).
  exists delays. split; [exact Ht |].
  apply (Hfirst (Inputs.reply 200 (Inputs.channelJson 0))); [reflexivity | discriminate].
Defined.

(** A channel resolved while Discord answered is still resolved, without
    a call, while Discord answers 429 to everything. *)
Lemma getChannel_cached_after_success_witness :
  let id := "123456789012345678" in
  channelTypeCache (Inputs.resolved 0) !! id = Some (Inputs.channel 0)
  /\ getChannel (Inputs.busyWorld 5 None) id (Inputs.resolved 0)
     = (inr (Inputs.channel 0), Inputs.resolved 0).
Proof.
  intros id.
  apply (getChannel_cached_after_success (Inputs.world 0 Inputs.feedAB [])
           (Inputs.busyWorld 5 None) id Inputs.start (Inputs.resolved 0)
           (Inputs.channel 0)).
  reflexivity.
Defined.

(** Posting to a second channel keeps the cached entry of the first. *)
Lemma sendToDiscord_cache_frame_witness :
  channelTypeCache
    (snd (sendToDiscord (H := Example.host) (Inputs.world 15 Inputs.feedAB [])
                        "223456789012345678" (Some "News") "https://news.example/a"
                        (Inputs.resolved 0)))
  !! "123456789012345678"
  = Some (Inputs.channel 0).
Proof.
  apply (proj1 (proj2 (sendToDiscord_cache_frame (H := Example.host)
                         (Inputs.world 15 Inputs.feedAB [])
                         "223456789012345678" (Some "News") "https://news.example/a"
                         (Inputs.resolved 0)))).
  reflexivity.
Defined.

(** ** Strings: trimming *)

Lemma trimStart_clean (s : string) : clean_start (trimStart s) = true.
Proof.
  induction s as [|c r IH]; simpl; [reflexivity |].
  destruct (is_whitespace c) eqn:E; [exact IH |]. simpl. rewrite E. reflexivity.
Qed.

Lemma trimStart_blank (s : string) : trimStart s = "" <-> blank s = true.
Proof.
  induction s as [|c r IH]; simpl; [tauto |].
  destruct (is_whitespace c); simpl; [exact IH |]. split; discriminate.
Qed.

Lemma trimStart_id (s : string) : clean_start s = true -> trimStart s = s.
Proof.
  destruct s as [|c r]; simpl; [reflexivity |].
  destruct (is_whitespace c); [discriminate | reflexivity].
Qed.

(** Trimming the end keeps a first code unit that is not white space. *)
Lemma trimEnd_head (c : ascii) (r : string) :
  is_whitespace c = false -> exists r', trimEnd (String c r) = String c r'.
Proof.
  intros Hc. simpl. destruct (trimEnd r) as [|d t]; rewrite ?Hc; eauto.
Qed.

Lemma trimEnd_idem (s : string) : trimEnd (trimEnd s) = trimEnd s.
Proof.
  induction s as [|c r IH]; simpl; [reflexivity |].
  destruct (trimEnd r) as [|d t] eqn:E.
  - destruct (is_whitespace c) eqn:Hc; simpl; [reflexivity |]. rewrite Hc. reflexivity.
  - change (trimEnd (String c (String d t))) with
      (match trimEnd (String d t) with
       | EmptyString => if is_whitespace c then EmptyString else String c EmptyString
       | r' => String c r'
       end).
    rewrite IH. reflexivity.
Qed.

Lemma trim_clean (s : string) : clean_start (trim s) = true.
Proof.
  unfold trim. pose proof (trimStart_clean s) as Hc.
  destruct (trimStart s) as [|c r]; [reflexivity |].
  simpl in Hc. apply negb_true_iff in Hc.
  destruct (trimEnd_head c r Hc) as [r' ->]. simpl. rewrite Hc. reflexivity.
Qed.

Lemma trim_idem (s : string) : trim (trim s) = trim s.
Proof.
  unfold trim at 1. rewrite (trimStart_id _ (trim_clean s)).
  unfold trim. apply trimEnd_idem.
Qed.

(** A string trims to nothing exactly when it is white space only. *)
Lemma trim_empty_iff (s : string) : trim s = "" <-> blank s = true.
Proof.
  rewrite <- trimStart_blank. unfold trim.
  pose proof (trimStart_clean s) as Hc.
  destruct (trimStart s) as [|c r]; [simpl; tauto |].
  simpl in Hc. apply negb_true_iff in Hc.
  destruct (trimEnd_head c r Hc) as [r' ->]. split; discriminate.
Qed.

Lemma clean_nonempty_not_blank (s : string) :
  clean_start s = true -> nonempty s = true -> blank s = false.
Proof.
  destruct s as [|c r]; simpl; [discriminate |].
  intros Hc _. apply negb_true_iff in Hc. rewrite Hc. reflexivity.
Qed.

Lemma blank_app (a b : string) : blank (a +:+ b) = blank a && blank b.
Proof.
  induction a as [|c r IH]; simpl; [reflexivity |].
  rewrite IH. apply andb_assoc.
Qed.

Lemma nonempty_false (s : string) : nonempty s = false <-> s = "".
Proof. destruct s; simpl; split; congruence. Qed.

Lemma trim_nonempty (s : string) : blank s = false -> nonempty (trim s) = true.
Proof.
  intros Hb. destruct (nonempty (trim s)) eqn:E; [reflexivity |].
  apply nonempty_false, trim_empty_iff in E. congruence.
Qed.

(** ** Links, titles and message bodies *)

Lemma slice0_clean (max : nat) (s : string) :
  clean_start s = true -> clean_start (slice0 max s) = true.
Proof.
  unfold slice0. destruct s as [|c r]; destruct max; simpl; auto.
Qed.

Lemma slice0_nonempty (max : nat) (s : string) :
  nonempty s = true -> nonempty (slice0 (S max) s) = true.
Proof. unfold slice0. destruct s as [|c r]; simpl; auto. Qed.

Lemma clampTitle_clean (t : option string) (max : nat) :
  clean_start (clampTitle t max) = true.
Proof. rewrite clampTitle_slice. apply slice0_clean, trim_clean. Qed.

Lemma clean_blank_empty (s : string) :
  clean_start s = true -> blank s = true -> s = "".
Proof.
  destruct s as [|c r]; simpl; [reflexivity |].
  intros Hc Hb. apply negb_true_iff in Hc. rewrite Hc in Hb. discriminate.
Qed.

(** [a || 'Article'] is never blank when [a] is a clamped title. *)
Lemma title_or_article_not_blank (t : option string) (max : nat) :
  blank (or_else (Some (clampTitle t max)) "Article") = false.
Proof.
  unfold or_else, present.
  destruct (nonempty (clampTitle t max)) eqn:E; [| reflexivity].
  apply clean_nonempty_not_blank; [apply clampTitle_clean | exact E].
Qed.

Section LinkProperties.
Context {H : Host}.

Lemma sanitizeLink_cases (l : string) :
  sanitizeLink l = ""
  \/ sanitizeLink l = trim l /\ isValidUrl (trim l) = true
     /\ nonempty (sanitizeLink l) = true.
Proof.
  unfold sanitizeLink. simpl.
  destruct (isValidUrl (trim l)) eqn:E; simpl; [| left; reflexivity].
  destruct (trim l) eqn:Et; [left; reflexivity |]. right. auto.
Qed.

Lemma sanitizeLink_not_blank (l : string) :
  nonempty (sanitizeLink l) = true -> blank (sanitizeLink l) = false.
Proof.
  intros Hn. apply clean_nonempty_not_blank; [| exact Hn].
  destruct (sanitizeLink_cases l) as [-> | (-> & _ & _)]; [reflexivity |].
  apply trim_clean.
Qed.

Lemma sanitizeLink_twice (l : string) :
  sanitizeLink (sanitizeLink l) = sanitizeLink l.
Proof.
  destruct (sanitizeLink_cases l) as [E | (E & Hv & _)]; rewrite E.
  - unfold sanitizeLink. simpl.
    change (trim "") with "". destruct (negb (isValidUrl "")); reflexivity.
  - unfold sanitizeLink at 1. simpl. rewrite trim_idem, Hv. reflexivity.
Qed.

(** X5. [sanitizeLink] is idempotent, and what it returns is either the
    empty string or the trimmed input, which then passes [isValidUrl] and
    neither begins nor ends in white space: the link that [checkFlux]
    sanitizes is passed through unchanged when [sendToDiscord] sanitizes it
    again. *)
Theorem sanitizeLink_idempotent (l : string) :
  sanitizeLink (sanitizeLink l) = sanitizeLink l
  /\ (sanitizeLink l = ""
      \/ sanitizeLink l = trim l
         /\ isValidUrl (sanitizeLink l) = true
         /\ trim (sanitizeLink l) = sanitizeLink l).
Proof.
  destruct (sanitizeLink_cases l) as [E | (E & Hv & _)]; rewrite E.
  - split; [| left; reflexivity]. unfold sanitizeLink. simpl.
    change (trim "") with "". destruct (negb (isValidUrl "")); reflexivity.
  - split.
    + unfold sanitizeLink at 1. simpl. rewrite trim_idem, Hv. reflexivity.
    + right. rewrite trim_idem. auto.
Qed.

Lemma messageContent_blank_iff (title : option string) (link : string) :
  blank (messageContent title link) = true
  <-> clampTitle title 100 = "" /\ sanitizeLink link = "".
Proof.
  unfold messageContent. cbv zeta.
  destruct (nonempty (sanitizeLink link)) eqn:E.
  - rewrite !blank_app, (sanitizeLink_not_blank _ E), !andb_false_r.
    split; [discriminate |]. intros [_ Hl]. rewrite Hl in E. discriminate.
  - apply nonempty_false in E. split.
    + intros Hb. split; [| exact E].
      apply clean_blank_empty; [apply clampTitle_clean | exact Hb].
    + intros [-> _]. reflexivity.
Qed.

(** X6. The thread that [sendToDiscord] creates in a forum channel
    always has a name of 1 to 90 code units that does not begin with white
    space, an auto-archive duration of 1440, and a first message that is
    not empty, whatever the title and the link. *)
Theorem threadRequest_well_formed (channelId : string) (title : option string)
        (link : string) :
  exists name content,
    body (threadRequest channelId (clampTitle title 100) (messageContent title link))
    = ThreadPayload name 1440 content
    /\ (1 <= String.length name <= 90)%nat
    /\ clean_start name = true
    /\ nonempty content = true.
Proof.
  eexists _, _. split; [reflexivity |].
  assert (Hname : nonempty (clampTitle (Some (clampTitle title 100)) 90) = true).
  { rewrite clampTitle_slice. apply slice0_nonempty, trim_nonempty.
    apply title_or_article_not_blank. }
  split; [| split].
  - split; [| apply clampTitle_length].
    destruct (clampTitle (Some (clampTitle title 100)) 90); [discriminate | simpl; lia].
  - apply clampTitle_clean.
  - apply trim_nonempty. unfold or_else at 1. unfold present.
    destruct (nonempty (messageContent title link)) eqn:E;
      [| apply title_or_article_not_blank].
    destruct (blank (messageContent title link)) eqn:Hb; [| reflexivity].
    apply messageContent_blank_iff in Hb as [Ht Hl].
    unfold messageContent in E. cbv zeta in E. rewrite Ht, Hl in E. discriminate.
Qed.

(** X7. The plain message that [sendToDiscord] posts in a text channel
    has an empty content exactly when the title trims to nothing and the
    link is not a valid URL; with a link that [sanitizeLink] accepts, as on
    every delivery made by [checkFlux], the content is the clamped title, a
    line feed and that link, and is not empty after trimming. *)
Theorem messageRequest_empty_iff (channelId : string) (title : option string)
        (link : string) :
  exists content,
    body (messageRequest channelId (messageContent title link)) = MessagePayload content
    /\ (content = "" <-> clampTitle title 100 = "" /\ sanitizeLink link = "")
    /\ (nonempty (sanitizeLink link) = true ->
        messageContent title (sanitizeLink link)
        = clampTitle title 100 +:+ LF +:+ sanitizeLink link
        /\ nonempty (trim (messageContent title (sanitizeLink link))) = true).
Proof.
  eexists. split; [reflexivity |]. rewrite or_else_some_empty. split.
  - rewrite trim_empty_iff. apply messageContent_blank_iff.
  - intros Hn.
    assert (Hc : messageContent title (sanitizeLink link)
                 = clampTitle title 100 +:+ LF +:+ sanitizeLink link).
    { unfold messageContent. cbv zeta.
      rewrite sanitizeLink_twice, Hn. reflexivity. }
    split; [exact Hc |]. apply trim_nonempty. rewrite Hc, !blank_app.
    rewrite (sanitizeLink_not_blank _ Hn), !andb_false_r. reflexivity.
Qed.

End LinkProperties.

(** A title of white space and no link: the message content is empty; a
    valid link: title, line feed, link. *)
Lemma messageRequest_empty_iff_witness :
  body (messageRequest "123456789012345678"
                       (messageContent (H := Example.host) (Some "   ") "not a url"))
  = MessagePayload ""
  /\ messageContent (H := Example.host) (Some "News")
                    (sanitizeLink (H := Example.host) " https://news.example/a ")
     = "News" +:+ LF +:+ "https://news.example/a".
Proof.
  split.
  - destruct (messageRequest_empty_iff (H := Example.host) "123456789012345678"
                (Some "   ") "not a url") as (content & Hb & Hiff & _).
    rewrite Hb. f_equal. apply Hiff. split; reflexivity.
  - destruct (messageRequest_empty_iff (H := Example.host) "123456789012345678"
                (Some "News") " https://news.example/a ") as (content & _ & _ & Hlink).
    apply (proj1 (Hlink eq_refl)).
Defined.

(** ** Selection of the latest item *)

Section SortProperties.
Context {A : Type} (cmp : A -> A -> number).

Lemma sort_insert_In (x z : A) (l : list A) :
  In z (sort_insert cmp x l) <-> z = x \/ In z l.
Proof.
  induction l as [|y r IH]; simpl; [intuition congruence |].
  destruct (number_pos (cmp x y)); simpl; [rewrite IH |]; intuition congruence.
Qed.

(** The sort neither loses nor invents an element. *)
Lemma Array_sort_In (z : A) (l : list A) : In z (Array_sort cmp l) <-> In z l.
Proof.
  unfold Array_sort. induction l as [|x r IH]; simpl; [tauto |].
  rewrite sort_insert_In, IH. intuition congruence.
Qed.

Context (key : A -> Z) (good : A -> Prop).
Hypothesis cmp_key : forall a b, good a -> good b -> cmp a b = Num (key b - key a).

(** With numeric keys the sorted list begins with a greatest element. *)
Lemma Array_sort_head_max (l : list A) :
  (forall a, In a l -> good a) ->
  match Array_sort cmp l with
  | [] => l = []
  | h :: _ => forall z, In z l -> key z <= key h
  end.
Proof.
  induction l as [|x r IH]; intros Hgood; [reflexivity |].
  assert (Hr : forall a, In a r -> good a) by (intros a Ha; apply Hgood; right; exact Ha).
  specialize (IH Hr). change (Array_sort cmp (x :: r)) with
    (sort_insert cmp x (Array_sort cmp r)).
  pose proof (Array_sort_In) as Hin.
  destruct (Array_sort cmp r) as [|h t] eqn:E.
  - subst r. simpl. intros z [-> | []]. lia.
  - assert (Hh : good h). { apply Hr, (Hin h r). rewrite E. left. reflexivity. }
    simpl. rewrite (cmp_key x h (Hgood x (or_introl eq_refl)) Hh). simpl.
    destruct (0 <? key h - key x) eqn:Hlt.
    + apply Z.ltb_lt in Hlt. intros z [-> | Hz]; [lia | apply IH, Hz].
    + apply Z.ltb_ge in Hlt. intros z [-> | Hz]; [lia |].
      specialize (IH z Hz). lia.
Qed.

End SortProperties.

Section SelectionProperties.
Context {H : Host}.

Lemma sortedByDate_In (i : Item) (d : number) (l : list Item) :
  In (i, d) (sortedByDate l) -> In i l /\ d = getItemDate i.
Proof.
  unfold sortedByDate.
  destruct (existsb _ _); [rewrite engine_sort_In | rewrite Array_sort_In];
    rewrite in_map_iff; intros (j & Heq & Hj); inversion Heq; subst; auto.
Qed.

(** When every date is a number, the comparator is consistent and the
    sort is the stable one. *)
Lemma sortedByDate_numeric (l : list Item) :
  (forall i, In i l -> exists z, getItemDate i = Num z) ->
  sortedByDate l = Array_sort byDateDesc (map (fun i => (i, getItemDate i)) l).
Proof.
  intros Hnum. unfold sortedByDate.
  destruct (existsb _ _) eqn:E; [| reflexivity].
  apply existsb_exists in E as ([i d] & Hin & Hnan).
  apply in_map_iff in Hin as (j & Heq & Hj). inversion Heq; subst.
  destruct (Hnum _ Hj) as [z Hz]. simpl in Hnan. rewrite Hz in Hnan. discriminate.
Qed.

Lemma selectLatest_subset (first : Item) (rest : list Item) :
  In (selectLatest first (first :: rest)) (first :: rest).
Proof.
  unfold selectLatest.
  destruct (sortedByDate (first :: rest)) as [|[i d] t] eqn:E; [left; reflexivity |].
  destruct (truthy d); [| left; reflexivity].
  apply (sortedByDate_In i d (first :: rest)). rewrite E. left. reflexivity.
Qed.

(** X8. The item [checkFlux] selects is always an item of the feed. When
    every item has a numeric date and at least one date is positive, no
    item of the feed has a later date than the selected one; when every
    date is [0] (no item carries a date), the selected item is the first of
    the feed. *)
Theorem selectLatest_newest (first : Item) (rest : list Item) :
  let l := first :: rest in
  let latest := selectLatest first l in
  In latest l
  /\ ((forall i, In i l -> exists z, getItemDate i = Num z) ->
      (exists i z, In i l /\ getItemDate i = Num z /\ 0 < z) ->
      exists m, getItemDate latest = Num m /\ 0 < m
                /\ forall j zj, In j l -> getItemDate j = Num zj -> zj <= m)
  /\ ((forall i, In i l -> getItemDate i = Num 0) -> latest = first).
Proof.
  intros l latest. subst latest. unfold selectLatest.
  split; [| split].
  - destruct (sortedByDate l) as [|[i d] t] eqn:E; [left; reflexivity |].
    destruct (truthy d); [| left; reflexivity].
    apply (sortedByDate_In i d l). rewrite E. left. reflexivity.
  - intros Hnum (i0 & z0 & Hi0 & Hd0 & Hpos).
    pose (key := fun p : Item * number => match snd p with Num z => z | _ => 0 end).
    pose (good := fun p : Item * number => exists z, snd p = Num z).
    assert (Hcmp : forall a b, good a -> good b -> byDateDesc a b = Num (key b - key a)).
    { intros a b [za Ha] [zb Hb]. unfold byDateDesc, key. rewrite Ha, Hb. reflexivity. }
    assert (Hgood : forall a, In a (map (fun i => (i, getItemDate i)) l) -> good a).
    { intros a Ha. apply in_map_iff in Ha as (j & <- & Hj). apply Hnum, Hj. }
    pose proof (Array_sort_head_max byDateDesc key good Hcmp _ Hgood) as Hmax.
    rewrite <- (sortedByDate_numeric l Hnum) in Hmax.
    destruct (sortedByDate l) as [|[i d] t] eqn:E; [discriminate |].
    assert (Hi : In i l /\ d = getItemDate i).
    { apply sortedByDate_In. rewrite E. left. reflexivity. }
    destruct Hi as [Hi ->]. destruct (Hnum i Hi) as [m Hm].
    assert (Hkey : forall j zj, In j l -> getItemDate j = Num zj -> zj <= m).
    { intros j zj Hj Hzj.
      specialize (Hmax (j, getItemDate j) (in_map _ _ _ Hj)).
      unfold key in Hmax. simpl in Hmax. rewrite Hzj, Hm in Hmax. exact Hmax. }
    pose proof (Hkey i0 z0 Hi0 Hd0) as Hle.
    rewrite Hm. simpl. assert (Hm0 : (m =? 0) = false) by (apply Z.eqb_neq; lia).
    rewrite Hm0. simpl. exists m. rewrite Hm. repeat split; auto. lia.
  - intros Hzero. destruct (sortedByDate l) as [|[i d] t] eqn:E; [reflexivity |].
    assert (Hi : In i l /\ d = getItemDate i).
    { apply sortedByDate_In. rewrite E. left. reflexivity. }
    destruct Hi as [Hi ->]. rewrite (Hzero i Hi). reflexivity.
Qed.

End SelectionProperties.

(** An undated item first, then items dated [T1] and [T2]: the item
    dated [T2] is selected. *)
Lemma selectLatest_newest_witness :
  exists m,
    getItemDate (H := Example.host)
      (selectLatest (H := Example.host)
         (Inputs.item "https://news.example/c" None) MoreInputs.feedMixed)
    = Num m
    /\ 1704153600000 <= m.
Proof.
  destruct (selectLatest_newest (H := Example.host)
              (Inputs.item "https://news.example/c" None)
              [Inputs.item "https://news.example/a" (Some Inputs.T1);
               Inputs.item "https://news.example/b" (Some Inputs.T2)])
    as (_ & Hmax & _).
  destruct Hmax as (m & Hm & _ & Hall).
  - intros i [<- | [<- | [<- | []]]]; eexists; reflexivity.
  - exists (Inputs.item "https://news.example/b" (Some Inputs.T2)), 1704153600000.
    split; [right; right; left; reflexivity |]. split; [reflexivity | lia].
  - exists m. split; [exact Hm |].
    apply (Hall (Inputs.item "https://news.example/b" (Some Inputs.T2)));
      [right; right; left; reflexivity | reflexivity].
Defined.

(** ** What a check changes *)

Lemma calls_emit (e : Event) (s : State) :
  is_fetch e = false -> calls (emit e s) = calls s.
Proof.
  intros He. unfold calls. simpl. rewrite List.filter_app. simpl. rewrite He.
  rewrite app_nil_r. reflexivity.
Qed.

Lemma network_not_saved (evs : list Event) (f : Flux) :
  forallb is_network evs = true -> ~ In (Saved f) evs.
Proof.
  intros Hall Hin. rewrite forallb_forall in Hall. specialize (Hall _ Hin).
  discriminate.
Qed.

Section CheckShape.
Context {H : Host} (W : World).

(** Every way a check can end. *)
Lemma checkFlux_shape (flux : Flux) (s : State) :
  (exists o, checkFlux W flux s = (o, flux, s)
             /\ (o = NoItems \/ o = NoLink \/ o = NoNovelty))
  \/ checkFlux W flux s = (InvalidFeedUrl, flux, emit (Warned (rssUrl flux)) s)
  \/ (exists e, checkFlux W flux s
                = (Failed Fetching e, flux, emit (CheckError (rssUrl flux) e) s))
  \/ (exists s1,
        adds is_network s s1
        /\ ((exists e, checkFlux W flux s
                       = (Failed Delivering e, flux,
                          emit (CheckError (rssUrl flux) e) s1))
            \/ exists flux2 l,
                 (flux2 = set_lastItem l flux
                  \/ exists d, flux2 = set_lastPubDate d (set_lastItem l flux))
                 /\ ((exists e, save W flux2 = inl e
                                /\ checkFlux W flux s
                                   = (Failed Saving e, flux2,
                                      emit (CheckError (rssUrl flux) e) s1))
                     \/ save W flux2 = inr tt
                        /\ checkFlux W flux s
                           = (Delivered, flux2, emit (Saved flux2) s1)))).
Proof.
  unfold checkFlux, checkFlux_try.
  destruct (isValidUrl (rssUrl flux)); simpl; [| right; left; reflexivity].
  destruct (parseRssWithTimeout W (rssUrl flux) 20000) as [e0|feed];
    [right; right; left; eauto |].
  destruct (default [] (items feed)) as [|first rest]; [left; eauto |].
  destruct (negb _); [left; eauto 6 |].
  destruct (noNovelty flux _ _); [left; eauto 6 |].
  pose proof (sendToDiscord_network W (discordTarget flux)
                (title (selectLatest first (first :: rest)))
                (sanitizeLink (getItemLinkOrGuid (selectLatest first (first :: rest))))
                s) as Hnet.
  right; right; right.
  destruct (sendToDiscord W _ _ _ s) as [[e0|u] s0]; simpl in Hnet; exists s0;
    (split; [exact Hnet |]); [left; eauto |].
  right.
  set (l := sanitizeLink (getItemLinkOrGuid (selectLatest first (first :: rest)))).
  set (d := getItemDate (selectLatest first (first :: rest))).
  destruct (truthy d).
  - exists (set_lastPubDate d (set_lastItem l flux)), l. split; [eauto |].
    destruct (save W (set_lastPubDate d (set_lastItem l flux))) as [e0|[]] eqn:Hsave;
      [left; eauto | right; auto].
  - exists (set_lastItem l flux), l. split; [eauto |].
    destruct (save W (set_lastItem l flux)) as [e0|[]] eqn:Hsave;
      [left; eauto | right; auto].
Qed.

(** What a check leaves alone. *)
Lemma checkFlux_untouched (flux : Flux) (s : State) (o : Outcome) (flux' : Flux)
      (s' : State) :
  checkFlux W flux s = (o, flux', s') ->
  (rssUrl flux' = rssUrl flux /\ discordTarget flux' = discordTarget flux
   /\ interval flux' = interval flux /\ active flux' = active flux
   /\ _lastCheck flux' = _lastCheck flux)
  /\ (delivered o = false -> flux' = flux)
  /\ (delivered o = false -> (forall e, o <> Failed Delivering e) ->
      calls s' = calls s /\ channelTypeCache s' = channelTypeCache s).
Proof.
  intros Hc.
  destruct (checkFlux_shape flux s)
    as [(o0 & Heq & Ho) | [Heq | [(e & Heq) | (s1 & Hnet & Hcase)]]].
  - rewrite Heq in Hc. inversion Hc; subst. auto 10.
  - rewrite Heq in Hc. inversion Hc; subst.
    repeat split; auto. apply calls_emit. reflexivity.
  - rewrite Heq in Hc. inversion Hc; subst.
    repeat split; auto. apply calls_emit. reflexivity.
  - destruct Hcase as [(e & Heq) | (flux2 & l & Hf2 & Hcase)].
    + rewrite Heq in Hc. inversion Hc; subst.
      repeat split; auto; exfalso;
        match goal with Hne : forall _, _ <> _ |- _ => apply (Hne e); reflexivity end.
    + assert (Hfields : rssUrl flux2 = rssUrl flux
                        /\ discordTarget flux2 = discordTarget flux
                        /\ interval flux2 = interval flux
                        /\ active flux2 = active flux
                        /\ _lastCheck flux2 = _lastCheck flux).
      { destruct Hf2 as [-> | [d ->]]; simpl; auto. }
      destruct Hcase as [(e & _ & Heq) | [_ Heq]]; rewrite Heq in Hc;
        inversion Hc; subst; (split; [exact Hfields |]); split; discriminate.
Qed.

(** X9. A check never changes the URL, the target, the interval, the
    active flag or the scheduling stamp of a subscription; it changes the
    document at all only when it has posted the item; and when it ends
    before the delivery (no items, no link, no novelty, invalid URL, failed
    fetch) it has made no HTTP call and left the channel cache alone. *)
Theorem checkFlux_frame (flux : Flux) (s : State) (o : Outcome) (flux' : Flux)
        (s' : State) :
  checkFlux W flux s = (o, flux', s') ->
  (rssUrl flux' = rssUrl flux /\ discordTarget flux' = discordTarget flux
   /\ interval flux' = interval flux /\ active flux' = active flux
   /\ _lastCheck flux' = _lastCheck flux)
  /\ (delivered o = false -> flux' = flux)
  /\ (delivered o = false -> (forall e, o <> Failed Delivering e) ->
      calls s' = calls s /\ channelTypeCache s' = channelTypeCache s).
Proof. apply checkFlux_untouched. Qed.

(** X10. A check saves at most once, as its very last step, and only
    after the delivery succeeded: the outcome is [Delivered] exactly when
    the trace ends with the save of the returned document, which the
    database accepted; in every other outcome nothing was saved. *)
Theorem checkFlux_saves_iff_delivered (flux : Flux) (s : State) (o : Outcome)
        (flux' : Flux) (s' : State) :
  checkFlux W flux s = (o, flux', s') ->
  exists evs,
    trace s' = trace s ++ evs
    /\ (o = Delivered ->
        save W flux' = inr tt
        /\ exists net, evs = net ++ [Saved flux'] /\ forallb is_network net = true)
    /\ (o <> Delivered -> forall f, ~ In (Saved f) evs).
Proof.
  intros Hc.
  destruct (checkFlux_shape flux s)
    as [(o0 & Heq & Ho) | [Heq | [(e & Heq) | (s1 & (net & Ht & Hnet) & Hcase)]]].
  - rewrite Heq in Hc. inversion Hc; subst. exists []. rewrite app_nil_r.
    split; [reflexivity |]. split; [| intros _ f []].
    intros ->. destruct Ho as [Ho | [Ho | Ho]]; discriminate.
  - rewrite Heq in Hc. inversion Hc; subst. exists [Warned (rssUrl flux')].
    split; [reflexivity |]. split; [discriminate |].
    intros _ f [Hin | []]. discriminate.
  - rewrite Heq in Hc. inversion Hc; subst. exists [CheckError (rssUrl flux') e].
    split; [reflexivity |]. split; [discriminate |].
    intros _ f [Hin | []]. discriminate.
  - destruct Hcase as [(e & Heq) | (flux2 & l & _ & [(e & _ & Heq) | [Hsave Heq]])];
      rewrite Heq in Hc; inversion Hc; subst; simpl; rewrite Ht, <- app_assoc.
    + eexists. split; [reflexivity |]. split; [discriminate |].
      intros _ f Hin. apply in_app_or in Hin as [Hin | [Hin | []]];
        [exact (network_not_saved _ _ Hnet Hin) | discriminate].
    + eexists. split; [reflexivity |]. split; [discriminate |].
      intros _ f Hin. apply in_app_or in Hin as [Hin | [Hin | []]];
        [exact (network_not_saved _ _ Hnet Hin) | discriminate].
    + eexists. split; [reflexivity |]. split; [| congruence].
      intros _. split; [exact Hsave |]. exists net. auto.
Qed.

End CheckShape.

(** A subscription that has seen link [b] and the feed whose latest item
    is [b]: no call, no change. *)
Lemma checkFlux_frame_witness :
  let W := Inputs.world 0 Inputs.feedAB [] in
  let flux := Inputs.subscription (Some "https://news.example/b") None in
  let r := checkFlux (H := Example.host) W flux Inputs.start in
  snd (fst r) = flux /\ calls (snd r) = calls Inputs.start.
Proof.
  intros W flux r.
  destruct (checkFlux_frame (H := Example.host) W flux Inputs.start
              (fst (fst r)) (snd (fst r)) (snd r) eq_refl) as (_ & Hsame & Hquiet).
  split; [apply Hsame; reflexivity |].
  apply Hquiet; [reflexivity | discriminate].
Defined.

(** The delivery of the specification's example ends with the save of the
    document it returns. *)
Lemma checkFlux_saves_iff_delivered_witness :
  let W := Inputs.world 0 Inputs.feedAB [] in
  let r := checkFlux (H := Example.host) W (Inputs.subscription None None)
                     Inputs.start in
  exists net, trace (snd r) = trace Inputs.start ++ net ++ [Saved (snd (fst r))].
Proof.
  intros W r.
  destruct (checkFlux_saves_iff_delivered (H := Example.host) W
              (Inputs.subscription None None) Inputs.start
              (fst (fst r)) (snd (fst r)) (snd r) eq_refl) as (evs & Ht & Hd & _).
  destruct (Hd eq_refl) as (_ & net & -> & _).
  exists net. exact Ht.
Defined.

(** ** What a tick checks *)

Section TickProperties.
Context {H : Host} (W : World).

Lemma toRun_stamped (now : Z) (fluxes : list Flux) (doc : Flux) :
  In doc (toRun now fluxes) ->
  _lastCheck doc = Some now
  /\ exists f, In f fluxes /\ isDue now f = true /\ doc = set__lastCheck now f.
Proof.
  rewrite toRun_due, in_map_iff. intros (f & <- & Hf).
  apply filter_In in Hf as [Hin Hdue]. split; [reflexivity | eauto].
Qed.

(** What holds of every check holds of every result of
    [Promise.allSettled]. *)
Lemma allSettled_Forall (P : Flux -> Prop) (Q : Outcome * Flux -> Prop) :
  (forall doc sa o f sb, P doc -> checkFlux W doc sa = (o, f, sb) -> Q (o, f)) ->
  forall l s, Forall P l -> Forall Q (fst (allSettled W l s)).
Proof.
  intros Hstep l. induction l as [|doc r IH]; intros s Hl; simpl; [constructor |].
  inversion Hl as [|? ? Hdoc Hrest]; subst.
  destruct (checkFlux W doc s) as [[o f] s1] eqn:Hc.
  specialize (IH s1 Hrest). destruct (allSettled W r s1) as [rest s2]. simpl in *.
  constructor; [exact (Hstep _ _ _ _ _ Hdoc Hc) | exact IH].
Qed.

(** X11. Every check that a tick runs is the check of a stored
    subscription that is active and was due, and the document it returns is
    still active, still has the URL and the target of that subscription,
    and is stamped with the time of the tick. *)
Theorem cronTick_checks_active_due (now : Z) (s : State) :
  Forall (fun r =>
            active (snd r) = true
            /\ _lastCheck (snd r) = Some now
            /\ exists f, In f (collection W) /\ Stored.active f = true
                         /\ isDue now (hydrate f) = true
                         /\ rssUrl (snd r) = Stored.rssUrl f
                         /\ discordTarget (snd r) = Stored.discordTarget f)
         (fst (cronTick W now s)).
Proof.
  unfold cronTick, findActive. destruct (find_error W); [constructor |].
  apply (allSettled_Forall
           (fun doc => In doc (toRun now (map hydrate
                                            (List.filter Stored.active (collection W))))));
    [| apply List.Forall_forall; intros x Hx; exact Hx].
  intros doc sa o f' sb Hdoc Hc.
  destruct (toRun_stamped now _ doc Hdoc) as (Hstamp & f0 & Hf & Hdue & ->).
  apply in_map_iff in Hf as (f & <- & Hf).
  apply filter_In in Hf as [Hin Hact].
  destruct (checkFlux_untouched W _ _ _ _ _ Hc) as ((Hu & Ht & _ & Ha & Hl) & _).
  simpl. rewrite Ha, Hl, Hu, Ht. simpl. repeat split; auto. exists f. auto.
Qed.

End TickProperties.

(** ** The stored documents under [/toggle] and [/delete] *)


Lemma find_url_app (target : string) (pre : list Stored.doc) (r : Stored.doc)
      (post : list Stored.doc) :
  Forall (fun f => Stored.rssUrl f <> target) pre -> Stored.rssUrl r = target ->
  List.find (fun f => String.eqb (Stored.rssUrl f) target) (pre ++ r :: post) = Some r.
Proof.
  intros Hpre Hu. induction Hpre as [|f rest Hf _ IH]; simpl.
  - rewrite Hu, String.eqb_refl. reflexivity.
  - apply String.eqb_neq in Hf. rewrite Hf. exact IH.
Qed.

Lemma find_url_skip (target : string) (pre post : list Stored.doc) :
  Forall (fun f => Stored.rssUrl f <> target) pre ->
  List.find (fun f => String.eqb (Stored.rssUrl f) target) (pre ++ post)
  = List.find (fun f => String.eqb (Stored.rssUrl f) target) post.
Proof.
  intros Hpre. induction Hpre as [|f rest Hf _ IH]; simpl; [reflexivity |].
  apply String.eqb_neq in Hf. rewrite Hf. exact IH.
Qed.





Section StoreProperties.
Context {H : Host}.








End StoreProperties.







(** ** Where a delivery sends its requests *)

Section DeliveryRequests.
Context {H : Host} (W : World).

Lemma Forall_repeat {A : Type} (P : A -> Prop) (a : A) (n : nat) :
  P a -> Forall P (repeat a n).
Proof. intros Ha. induction n; simpl; constructor; auto. Qed.

(** The requests of one [sendToDiscord]: the lookup of the channel, at
    most three times, then one of the two posts, at most three times. *)
Lemma sendToDiscord_calls (channelId : string) (title : option string)
      (link : string) (s : State) :
  exists evs,
    trace (snd (sendToDiscord W channelId title link s)) = trace s ++ evs
    /\ forallb is_network evs = true
    /\ Forall (fun r =>
                 r = lookupRequest channelId
                 \/ r = threadRequest channelId (clampTitle title 100)
                                      (messageContent title link)
                 \/ r = messageRequest channelId (messageContent title link))
              (requests evs)
    /\ (length (requests evs) <= 6)%nat
    /\ (present (DISCORD_TOKEN W) = None -> evs = []).
Proof.
  destruct (sendToDiscord_network W channelId title link s) as (evs & Ht & Hnet).
  exists evs. split; [exact Ht |]. split; [exact Hnet |].
  destruct (nonempty (or_else (DISCORD_TOKEN W) "")) eqn:Htok.
  - assert (Hpresent : present (DISCORD_TOKEN W) <> None).
    { unfold or_else in Htok. destruct (present (DISCORD_TOKEN W)); [discriminate |].
      discriminate. }
    rewrite (sendToDiscord_unfold W _ _ _ _ Htok) in Ht.
    destruct (getChannel_events W channelId s) as (evs0 & k0 & Ht0 & Hr0 & Hk0).
    destruct (getChannel W channelId s) as [[e|ch] s0]; simpl in Ht, Ht0.
    + rewrite Ht0 in Ht. apply app_inv_head in Ht. subst evs. rewrite Hr0.
      split; [apply Forall_repeat; auto |].
      split; [rewrite repeat_length; lia | intros Hn; contradiction].
    + assert (Hpost : exists evs1,
                 trace s0 ++ evs1 = trace s ++ evs
                 /\ Forall (fun r =>
                              r = lookupRequest channelId
                              \/ r = threadRequest channelId (clampTitle title 100)
                                                   (messageContent title link)
                              \/ r = messageRequest channelId
                                                    (messageContent title link))
                           (requests evs1)
                 /\ (length (requests evs1) <= 3)%nat).
      { destruct (type_is ch 15); [| destruct (type_is ch 0)].
        - destruct (post_events W (threadRequest channelId (clampTitle title 100)
                                                 (messageContent title link)) s0)
            as (evs1 & k & Ht1 & Hr1 & Hk1).
          unfold createForumThread in Ht. rewrite Ht1 in Ht.
          exists evs1. rewrite Hr1. split; [exact Ht |].
          split; [apply Forall_repeat; auto | rewrite repeat_length; lia].
        - destruct (post_events W (messageRequest channelId (messageContent title link))
                                s0)
            as (evs1 & k & Ht1 & Hr1 & Hk1).
          unfold postTextMessage in Ht. rewrite Ht1 in Ht.
          exists evs1. rewrite Hr1. split; [exact Ht |].
          split; [apply Forall_repeat; auto | rewrite repeat_length; lia].
        - exists []. simpl in *. rewrite app_nil_r. split; [exact Ht |].
          split; [constructor | lia]. }
      destruct Hpost as (evs1 & Ht1 & Hall1 & Hlen1).
      rewrite Ht0, <- app_assoc in Ht1. apply app_inv_head in Ht1. subst evs.
      rewrite requests_app, Hr0.
      split; [apply Forall_app; split; [apply Forall_repeat; auto | exact Hall1] |].
      split; [rewrite length_app, repeat_length; lia | intros Hn; contradiction].
  - unfold sendToDiscord in Ht. rewrite Htok in Ht. simpl in Ht.
    assert (evs = []) as ->.
    { apply (app_inv_head (trace s)). rewrite app_nil_r. symmetry. exact Ht. }
    simpl. split; [constructor |]. split; [lia | reflexivity].
Qed.

(** X17. Whatever Discord answers, one [sendToDiscord] adds to the trace
    only HTTP calls and waits, makes at most six calls, and sends nothing
    but the lookup of the given channel, the thread creation in it and the
    message to it, each built from the given title and link; without a
    configured token it sends nothing at all. *)
Theorem sendToDiscord_requests_stay_on_channel (channelId : string)
        (title : option string) (link : string) (s : State) :
  exists evs,
    trace (snd (sendToDiscord W channelId title link s)) = trace s ++ evs
    /\ forallb is_network evs = true
    /\ Forall (fun r =>
                 r = lookupRequest channelId
                 \/ r = threadRequest channelId (clampTitle title 100)
                                      (messageContent title link)
                 \/ r = messageRequest channelId (messageContent title link))
              (requests evs)
    /\ (length (requests evs) <= 6)%nat
    /\ (present (DISCORD_TOKEN W) = None -> evs = []).
Proof. apply sendToDiscord_calls. Qed.

(** X18. The [/manual] route never saves and never logs: it adds to the
    trace only HTTP calls and waits. A request it refuses (401 or 400)
    leaves the state untouched. Every call it makes goes to the channel
    whose identifier it has validated as 16 to 21 digits: the lookup
    [/channels/{id}], or one of the posts [/channels/{id}/threads] and
    [/channels/{id}/messages]. *)
Theorem manual_route_effects (key title link discordTarget : option string)
        (s s' : State) (r : Reply) :
  manual_route W key title link discordTarget s = (r, s') ->
  exists evs,
    trace s' = trace s ++ evs
    /\ forallb is_network evs = true
    /\ (forall c m, r = SendText c m -> c <> 200 -> s' = s)
    /\ (requests evs <> [] ->
        exists t,
          present discordTarget = Some t
          /\ all_digits t = true
          /\ (16 <= String.length t <= 21)%nat
          /\ Forall (fun q => url q = channelUrl t
                              \/ url q = channelUrl t +:+ "/threads"
                              \/ url q = channelUrl t +:+ "/messages")
                    (requests evs)).
Proof.
  unfold manual_route.
  assert (Hquiet : forall r0, (r0, s) = (r, s') ->
            exists evs, trace s' = trace s ++ evs /\ forallb is_network evs = true
              /\ (forall c m, r = SendText c m -> c <> 200 -> s' = s)
              /\ (requests evs <> [] ->
                  exists t,
                    present discordTarget = Some t
                    /\ all_digits t = true
                    /\ (16 <= String.length t <= 21)%nat
                    /\ Forall (fun q => url q = channelUrl t
                                        \/ url q = channelUrl t +:+ "/threads"
                                        \/ url q = channelUrl t +:+ "/messages")
                              (requests evs))).
  { intros r0 Heq. inversion Heq; subst. exists []. rewrite app_nil_r.
    repeat split; auto. intros Hne. contradiction. }
  destruct (requireApiKey W key) as [r0|]; [apply Hquiet |].
  destruct (present discordTarget) as [t|]; [| apply Hquiet].
  destruct (isValidDiscordId t) eqn:Hid; simpl; [| apply Hquiet].
  clear Hquiet.
  destruct (sendToDiscord_calls t (Some (or_else title "Article"))
                                (sanitizeLink (or_else link "")) s)
    as (evs & Ht & Hnet & Hall & _ & _).
  assert (Hvalid : all_digits t = true /\ (16 <= String.length t <= 21)%nat).
  { unfold isValidDiscordId in Hid. apply andb_prop in Hid as [Hid Hmax].
    apply andb_prop in Hid as [Hd Hmin].
    apply Nat.leb_le in Hmin, Hmax. auto. }
  assert (Hurls : Forall (fun q => url q = channelUrl t
                                   \/ url q = channelUrl t +:+ "/threads"
                                   \/ url q = channelUrl t +:+ "/messages")
                         (requests evs)).
  { eapply List.Forall_impl; [| exact Hall]. intros q [-> | [-> | ->]]; simpl; auto. }
  destruct (sendToDiscord W t _ _ s) as [[e|u] s1]; simpl in Ht;
    intros Heq; inversion Heq; subst; exists evs;
    (split; [exact Ht |]); (split; [exact Hnet |]); (split; [congruence |]);
    intros _; exists t; tauto.
Qed.

End DeliveryRequests.

(** A manual post to a text channel: the lookup, then the message. *)
Lemma manual_route_effects_witness :
  let W := Inputs.world 0 Inputs.feedAB [] in
  let r := manual_route (H := Example.host) W None (Some "Hello")
                        (Some "https://news.example/a")
                        (Some "123456789012345678") Inputs.start in
  exists evs,
    trace (snd r) = trace Inputs.start ++ evs
    /\ forallb is_network evs = true
    /\ exists t, all_digits t = true
                 /\ Forall (fun q => url q = channelUrl t
                                     \/ url q = channelUrl t +:+ "/threads"
                                     \/ url q = channelUrl t +:+ "/messages")
                           (requests evs).
Proof.
  intros W r.
  destruct (manual_route_effects (H := Example.host) W None (Some "Hello")
              (Some "https://news.example/a") (Some "123456789012345678")
              Inputs.start (snd r) (fst r) eq_refl)
    as (evs & Ht & Hnet & _ & Hcalls).
  exists evs. split; [exact Ht |]. split; [exact Hnet |].
  destruct Hcalls as (t & _ & Hd & _ & Hall).
  - intros Hnone.
    assert (Hreq : requests (trace (snd r)) = requests (trace Inputs.start ++ evs))
      by (rewrite Ht; reflexivity).
    rewrite requests_app, Hnone in Hreq. vm_compute in Hreq. discriminate.
  - exists t. auto.
Defined.

(** Without a token nothing is sent. *)
Lemma sendToDiscord_requests_stay_on_channel_witness :
  let W := {| DISCORD_TOKEN := None; API_KEY := None; fetch := Inputs.discord 0;
              parseURL := fun _ => None; collection := [];
              find_error := None; save := fun _ => inr tt |} in
  exists evs,
    trace (snd (sendToDiscord (H := Example.host) W "123456789012345678"
                              (Some "News") "https://news.example/a" Inputs.start))
    = trace Inputs.start ++ evs
    /\ evs = [].
Proof.
  intros W.
  destruct (sendToDiscord_requests_stay_on_channel (H := Example.host) W
              "123456789012345678" (Some "News") "https://news.example/a" Inputs.start)
    as (evs & Ht & _ & _ & _ & Hnone).
  exists evs. split; [exact Ht | exact (Hnone eq_refl)].
Defined.

(** ** What a delivery records *)

Section RecordProperties.
Context {H : Host} (W : World).

(** A check that posted the item: the gates it went through and the
    document it left. *)
Lemma checkFlux_delivered_gate (flux : Flux) (s : State) (o : Outcome)
      (flux1 : Flux) (s1 : State) :
  checkFlux W flux s = (o, flux1, s1) -> delivered o = true ->
  exists feed first rest,
    parseRssWithTimeout W (rssUrl flux) 20000 = inr feed
    /\ items feed = Some (first :: rest)
    /\ let latest := selectLatest first (first :: rest) in
       let l := sanitizeLink (getItemLinkOrGuid latest) in
       let d := getItemDate latest in
       nonempty l = true
       /\ noNovelty flux l d = false
       /\ flux1 = (if truthy d then set_lastPubDate d (set_lastItem l flux)
                   else set_lastItem l flux).
Proof.
  unfold checkFlux, checkFlux_try.
  destruct (isValidUrl (rssUrl flux)) eqn:Hvalid; simpl;
    [| intros Heq; inversion Heq; subst; discriminate].
  destruct (parseRssWithTimeout W (rssUrl flux) 20000) as [e|feed] eqn:Hfeed;
    [intros Heq; inversion Heq; subst; discriminate |].
  destruct (items feed) as [[|first rest]|] eqn:Hitems; simpl;
    try (intros Heq; inversion Heq; subst; discriminate).
  destruct (nonempty (sanitizeLink _)) eqn:Hlink; simpl;
    [| intros Heq; inversion Heq; subst; discriminate].
  destruct (noNovelty flux _ _) eqn:Hgate;
    [intros Heq; inversion Heq; subst; discriminate |].
  destruct (sendToDiscord W _ _ _ s) as [[e|u] s0];
    [intros Heq; inversion Heq; subst; discriminate |].
  intros Heq Hd. exists feed, first, rest.
  split; [assumption || reflexivity |]. split; [assumption || reflexivity |]. cbv zeta.
  split; [exact Hlink |]. split; [exact Hgate |].
  destruct (truthy _); destruct (save W _); inversion Heq; subst; reflexivity.
Qed.

(** X19. The link a check records is always the sanitized link of an
    item of the fetched feed: it is not empty, passes [isValidUrl], has no
    white space around it, and differs from the link recorded before, so a
    check never posts again the link that [lastItem] holds. *)
Theorem checkFlux_records_valid_new_link (flux : Flux) (s : State) (o : Outcome)
        (flux' : Flux) (s' : State) :
  checkFlux W flux s = (o, flux', s') ->
  delivered o = true ->
  exists feed l item,
    parseRssWithTimeout W (rssUrl flux) 20000 = inr feed
    /\ In item (default [] (items feed))
    /\ l = sanitizeLink (getItemLinkOrGuid item)
    /\ lastItem flux' = Some l
    /\ nonempty l = true
    /\ isValidUrl l = true
    /\ trim l = l
    /\ lastItem flux <> Some l.
Proof.
  intros Hc Hd.
  destruct (checkFlux_delivered_gate _ _ _ _ _ Hc Hd)
    as (feed & first & rest & Hfeed & Hitems & Hlink & Hgate & Hflux).
  exists feed, (sanitizeLink (getItemLinkOrGuid (selectLatest first (first :: rest)))),
    (selectLatest first (first :: rest)).
  split; [exact Hfeed |]. rewrite Hitems. simpl default.
  split; [apply (selectLatest_subset first rest) |]. split; [reflexivity |].
  split; [subst flux'; destruct (truthy _); reflexivity |].
  split; [exact Hlink |].
  destruct (sanitizeLink_cases (getItemLinkOrGuid (selectLatest first (first :: rest))))
    as [E | (E & Hv & _)]; [rewrite E in Hlink; discriminate |].
  rewrite E. split; [exact Hv |]. split; [apply trim_idem |].
  intros Hsame. unfold noNovelty in Hgate. rewrite Hsame, <- E, String.eqb_refl in Hgate.
  discriminate.
Qed.

End RecordProperties.

(** The delivery of the specification's example records the link of item
    [b], a valid URL of the feed. *)
Lemma checkFlux_records_valid_new_link_witness :
  let W := Inputs.world 0 Inputs.feedAB [] in
  let flux := Inputs.subscription None None in
  let r := checkFlux (H := Example.host) W flux Inputs.start in
  exists feed l item,
    parseRssWithTimeout W (rssUrl flux) 20000 = inr feed
    /\ In item (default [] (items feed))
    /\ l = sanitizeLink (H := Example.host) (getItemLinkOrGuid item)
    /\ lastItem (snd (fst r)) = Some l
    /\ nonempty l = true
    /\ isValidUrl (H := Example.host) l = true
    /\ trim l = l
    /\ lastItem flux <> Some l.
Proof.
  intros W flux r.
  apply (checkFlux_records_valid_new_link (H := Example.host) W flux Inputs.start
           (fst (fst r)) (snd (fst r)) (snd r)); reflexivity.
Defined.

(** ** How many calls a check and a tick make *)

Lemma calls_requests (l : list Event) :
  length (List.filter is_fetch l) = length (requests l).
Proof.
  induction l as [|e r IH]; simpl; [reflexivity |].
  destruct e; simpl; rewrite ?IH; reflexivity.
Qed.

Lemma calls_app (s s' : State) (evs : list Event) :
  trace s' = trace s ++ evs -> calls s' = (calls s + length (requests evs))%nat.
Proof.
  intros Ht. unfold calls. rewrite Ht, List.filter_app, length_app, !calls_requests.
  reflexivity.
Qed.

Section CallBudget.
Context {H : Host} (W : World).

Lemma checkFlux_calls (flux : Flux) (s : State) :
  (calls s <= calls (snd (checkFlux W flux s)) <= calls s + 6)%nat.
Proof.
  unfold checkFlux, checkFlux_try.
  destruct (isValidUrl (rssUrl flux)); simpl;
    [| rewrite calls_emit; [lia | reflexivity]].
  destruct (parseRssWithTimeout W (rssUrl flux) 20000) as [e0|feed]; simpl;
    [rewrite calls_emit; [lia | reflexivity] |].
  destruct (default [] (items feed)) as [|first rest]; simpl; [lia |].
  destruct (negb _); simpl; [lia |].
  destruct (noNovelty flux _ _); simpl; [lia |].
  destruct (sendToDiscord_calls W (discordTarget flux)
              (title (selectLatest first (first :: rest)))
              (sanitizeLink (getItemLinkOrGuid (selectLatest first (first :: rest))))
              s) as (evs & Ht & _ & _ & Hlen & _).
  apply calls_app in Ht.
  destruct (sendToDiscord W _ _ _ s) as [[e0|u] s0]; simpl in *.
  { rewrite calls_emit; [lia | reflexivity]. }
  destruct (truthy _); destruct (save W _); simpl;
    (rewrite calls_emit; [lia | reflexivity]).
Qed.

(** X21. A check makes at most six HTTP calls (three attempts of the
    channel lookup and three of the post), and a tick at most six for each
    check it runs; a tick whose query fails makes none. *)
Theorem cronTick_call_budget (now : Z) (s : State) :
  (forall flux s0,
      (calls s0 <= calls (snd (checkFlux W flux s0)) <= calls s0 + 6)%nat)
  /\ (calls s <= calls (snd (cronTick W now s))
      <= calls s + 6 * length (fst (cronTick W now s)))%nat
  /\ (length (fst (cronTick W now s))
      <= length (List.filter Stored.active (collection W)))%nat.
Proof.
  split; [apply checkFlux_calls |].
  unfold cronTick, findActive. destruct (find_error W).
  { simpl. rewrite calls_emit; [lia | reflexivity]. }
  assert (Hall : forall l s0,
             (calls s0 <= calls (snd (allSettled W l s0))
              <= calls s0 + 6 * length (fst (allSettled W l s0)))%nat
             /\ length (fst (allSettled W l s0)) = length l).
  { induction l as [|doc r IH]; intros s0; simpl; [lia |].
    pose proof (checkFlux_calls doc s0) as Hc.
    destruct (checkFlux W doc s0) as [[o f] s1]. simpl in Hc.
    specialize (IH s1). destruct (allSettled W r s1) as [rest s2]. simpl in *. lia. }
  destruct (Hall (toRun now (map hydrate (List.filter Stored.active (collection W)))) s)
    as [Hcalls Hlen].
  split; [exact Hcalls |]. rewrite Hlen, toRun_loaded, length_map. lia.
Qed.

End CallBudget.

(** ** The API key *)

Section ApiKey.
Context {H : Host} (W : World).

(** X22. When a non-empty [API_KEY] is configured, a request whose
    [X-API-Key] header is missing, empty or different is answered 401 by
    [/toggle], [/delete] and [/manual] alike, and nothing is read, written
    or sent; when [API_KEY] is unset or empty, no request is refused for
    its key. *)
Theorem routes_require_api_key (key : option string) :
  (forall k, present (API_KEY W) = Some k -> present key <> Some k ->
     (forall target,
         toggle_route W key target
         = (SendText 401 "API key invalide", collection W))
     /\ (forall target,
           delete_route W key target
           = (Plain (SendText 401 "API key invalide"), collection W))
     /\ (forall title link discordTarget s,
           manual_route W key title link discordTarget s
           = (SendText 401 "API key invalide", s)))
  /\ (present (API_KEY W) = None -> requireApiKey W key = None)
  /\ (forall k, present (API_KEY W) = Some k -> present key = Some k ->
        requireApiKey W key = None).
Proof.
  split; [| split].
  - intros k Hk Hne.
    assert (Hreq : requireApiKey W key = Some (SendText 401 "API key invalide")).
    { unfold requireApiKey. rewrite Hk. destruct (present key) as [k'|]; [| reflexivity].
      destruct (String.eqb k' k) eqn:E; [| reflexivity].
      apply String.eqb_eq in E. congruence. }
    unfold toggle_route, delete_route, manual_route. rewrite Hreq. auto.
  - intros Hnone. unfold requireApiKey. rewrite Hnone. reflexivity.
  - intros k Hk Hkey. unfold requireApiKey. rewrite Hk, Hkey, String.eqb_refl.
    reflexivity.
Qed.

End ApiKey.

(** With the key ["secret"] configured, a request with the key ["guess"]
    is refused by the three routes. *)
Lemma routes_require_api_key_witness :
  let W := MoreInputs.lockedWorld [Inputs.recentDoc] in
  toggle_route (H := Example.host) W (Some "guess") (Some "https://feed.example/rss")
  = (SendText 401 "API key invalide", [Inputs.recentDoc])
  /\ delete_route (H := Example.host) W (Some "guess") (Some "https://feed.example/rss")
     = (Plain (SendText 401 "API key invalide"), [Inputs.recentDoc])
  /\ manual_route (H := Example.host) W (Some "guess") (Some "Hello") None
                  (Some "123456789012345678") Inputs.start
     = (SendText 401 "API key invalide", Inputs.start).
Proof.
  intros W.
  destruct (routes_require_api_key (H := Example.host) W (Some "guess"))
    as [Hrefuse _].
  destruct (Hrefuse "secret" eq_refl) as (Ht & Hd & Hm); [discriminate |].
  split; [apply Ht |]. split; [apply Hd | apply Hm].
Defined.
